(** * Syscall correlation engine of the runtime-security probes

    A shallow embedding of [pkg/security/ebpf/c/chmod.h] and
    [pkg/security/ebpf/c/mount.h]: the entry probes that park a
    [syscall_cache_t] for the current thread, the intermediate mount hooks
    that fill it in, and the exit probes that consume it and publish an
    event.

    Integers are [Z]; kernel pointers are [Z] addresses with [0] for NULL.
    The eBPF maps are explicit components of a [state] that every handler
    receives and returns, together with the handler's return code. *)

From stdpp Require Import gmap strings list fin_maps.
From Stdlib Require Import ZArith.

Open Scope Z_scope.

(** ** Constants *)

(** Linux [stat.h] permission masks. *)
Definition S_ISUID : Z := 0x800.     (* 04000 *)
Definition S_ISGID : Z := 0x400.     (* 02000 *)
Definition S_ISVTX : Z := 0x200.     (* 01000 *)
Definition S_IRWXUGO : Z := 0x1ff.   (* 00777 *)
Definition S_IALLUGO : Z :=
  Z.lor (Z.lor (Z.lor S_ISUID S_ISGID) S_ISVTX) S_IRWXUGO.

(** [#define FSTYPE_LEN 16] *)
Definition FSTYPE_LEN : nat := 16.

(** ** Data model *)

(** The event type tags used by the two families. *)
Inductive event_type := EVENT_CHMOD | EVENT_MOUNT.

#[global] Instance event_type_eq_dec : EqDecision event_type.
Proof. solve_decision. Defined.

#[global] Instance event_type_countable : Countable event_type.
Proof.
  refine (inj_countable'
            (λ t, match t with EVENT_CHMOD => false | EVENT_MOUNT => true end)
            (λ b : bool, if b then EVENT_MOUNT else EVENT_CHMOD) _).
  by intros [].
Defined.

(** [struct policy_t]: the per-type policy fetched at entry. *)
Record policy_t := { policy_mode : Z; policy_flags : Z }.

(** [struct path_key_t]: (mount id, inode). *)
Record path_key_t := { ino : Z; mount_id : Z }.

(** [struct file_t]: the identity of the target file. *)
Record file_t := { path_key : path_key_t; file_flags : Z }.

(** The [setattr] member of [struct syscall_cache_t]. *)
Record setattr_t := { setattr_mode : Z; setattr_file : file_t; setattr_dentry : Z }.

(** The [mount] member of [struct syscall_cache_t]: three kernel handles,
    the root key, and the address of the filesystem type name. *)
Record mount_t := {
  src_mnt : Z;
  dest_mnt : Z;
  dest_mountpoint : Z;
  root_key : path_key_t;
  fstype : Z
}.

(** [struct syscall_cache_t].  The C declaration overlays the per-family
    members; every handler below reads only the member of the family it
    popped or peeked, so the two are kept side by side here. *)
Record syscall_cache_t := {
  type : event_type;
  policy : policy_t;
  setattr : setattr_t;
  mount : mount_t
}.

Definition zero_policy : policy_t := {| policy_mode := 0; policy_flags := 0 |}.
Definition zero_key : path_key_t := {| ino := 0; mount_id := 0 |}.
Definition zero_file : file_t := {| path_key := zero_key; file_flags := 0 |}.
Definition zero_setattr : setattr_t :=
  {| setattr_mode := 0; setattr_file := zero_file; setattr_dentry := 0 |}.
Definition zero_mount : mount_t :=
  {| src_mnt := 0; dest_mnt := 0; dest_mountpoint := 0;
     root_key := zero_key; fstype := 0 |}.

(** [struct kevent_t]: the common header; [None] is the zeroed header of a
    freshly initialised event, [send_event] stamps the tag.  Timestamp and
    cpu are not modelled. *)
Record kevent_t := { kevent_type : option event_type }.

Record process_context_t := { pid : Z; tid : Z }.
Record container_context_t := { container_id : string }.
Record proc_cache_t := { proc_container : container_context_t }.
Record syscall_t := { retval : Z }.

(** [struct chmod_event_t] *)
Record chmod_event_t := {
  ce_event : kevent_t;
  ce_process : process_context_t;
  ce_container : container_context_t;
  ce_syscall : syscall_t;
  ce_file : file_t;
  ce_mode : Z;
  ce_padding : Z
}.

(** [struct mount_event_t] *)
Record mount_event_t := {
  me_event : kevent_t;
  me_process : process_context_t;
  me_container : container_context_t;
  me_syscall : syscall_t;
  me_mount_id : Z;
  me_group_id : Z;
  me_device : Z;
  me_parent_mount_id : Z;
  me_parent_ino : Z;
  me_root_ino : Z;
  me_root_mount_id : Z;
  me_padding : Z;
  me_fstype : string
}.

(** What travels on the outbound channel. *)
Inductive event :=
| Chmod_event (e : chmod_event_t)
| Mount_event (e : mount_event_t).

(** One name fragment of a path walk. *)
Record fragment := { frag_key : path_key_t; frag_name : string }.

(** ** The kernel side

    Everything the two headers call but do not define is a field of this
    record, under the name the headers use: the policy table
    ([fetch_policy]), the process discarders ([is_discarded_by_process], with
    the calling thread made explicit), the error classification macro
    ([IS_UNHANDLED_ERROR]) and the accessors that read kernel objects through
    a handle.  [fs_type_name] is the read of [&s_type->name], [kernel_str]
    the string found at an address, [dentry_parent], [dentry_name] and
    [dentry_is_root] what the path walk reads of a dentry, [current_tgid]
    and [get_pid_cache] what the identity resolver looks up.  Results are in
    the range of the field they are stored into.  Every handler below takes
    the kernel [K] and the calling thread [cur]
    ([bpf_get_current_pid_tgid]). *)
Record kernel := {
  fetch_policy : event_type → policy_t;
  is_discarded_by_process : Z → event_type → Z → bool;
  IS_UNHANDLED_ERROR : Z → bool;
  get_mount_mount_id : Z → Z;
  get_mount_peer_group_id : Z → Z;
  get_mount_dev : Z → Z;
  get_mount_vfsmount : Z → Z;
  get_vfsmount_dentry : Z → Z;
  get_mountpoint_dentry : Z → Z;
  get_dentry_ino : Z → Z;
  get_dentry_sb : Z → Z;
  get_super_block_fs : Z → Z;
  fs_type_name : Z → Z;
  kernel_str : Z → string;
  dentry_parent : Z → Z;
  dentry_name : Z → string;
  dentry_is_root : Z → bool;
  current_tgid : Z → Z;
  get_pid_cache : Z → option proc_cache_t;
  DENTRY_MAX_DEPTH : nat
}.

(** A probe read through the NULL handle faults and leaves zeroes in the
    destination. *)
Definition null_reads_zero (K : kernel) : Prop :=
  get_mount_mount_id K 0 = 0 ∧ get_mount_dev K 0 = 0 ∧ kernel_str K 0 = "".

(** ** Engine state *)

Record state := {
  syscalls : gmap (Z * event_type) syscall_cache_t;
  events : list event;
  pathnames : list fragment
}.

Definition init_state : state :=
  {| syscalls := ∅; events := []; pathnames := [] |}.

Definition set_syscalls (m : gmap (Z * event_type) syscall_cache_t) (st : state) : state :=
  {| syscalls := m; events := events st; pathnames := pathnames st |}.

Definition set_mount (m : mount_t) (sc : syscall_cache_t) : syscall_cache_t :=
  {| type := type sc; policy := policy sc; setattr := setattr sc; mount := m |}.

Definition set_setattr (s : setattr_t) (sc : syscall_cache_t) : syscall_cache_t :=
  {| type := type sc; policy := policy sc; setattr := s; mount := mount sc |}.

(** ** Pending-syscall cache *)

(** Modelled from the spec: [cache_syscall] is declared in [syscalls.h],
    which is not among the sources.  "insert(key, payload) stores or
    overwrites the single slot for key", the key being (thread, type). *)
Definition cache_syscall (cur : Z) (syscall : syscall_cache_t) (st : state) : state :=
  set_syscalls (<[(cur, type syscall) := syscall]> (syscalls st)) st.

(** Modelled from the spec: [peek_syscall] of [syscalls.h].  "Lookup used by
    intermediate hooks for the current thread's pending syscall of a given
    type; returns absent if none in flight." *)
Definition peek_syscall (cur : Z) (ty : event_type) (st : state) : option syscall_cache_t :=
  syscalls st !! (cur, ty).

(** The hooks write through the pointer [peek_syscall] returned. *)
Definition store_syscall (cur : Z) (ty : event_type) (syscall : syscall_cache_t) (st : state) : state :=
  set_syscalls (<[(cur, ty) := syscall]> (syscalls st)) st.

(** Modelled from the spec: [pop_syscall] of [syscalls.h].  "Removes and
    returns the entry for the current thread and given type." *)
Definition pop_syscall (cur : Z) (ty : event_type) (st : state) : option syscall_cache_t * state :=
  (syscalls st !! (cur, ty), set_syscalls (delete (cur, ty) (syscalls st)) st).

(** ** Path resolver *)

(** Modelled from the spec: the loop of [resolve_dentry] (not among the
    sources).  "Walking toward the filesystem root, stopping at a configured
    maximum depth or upon reaching a root entry", one fragment with its
    (mount id, inode) pair per step. *)
Fixpoint walk_dentry (K : kernel) (depth : nat) (dentry : Z) (key : path_key_t) : list fragment :=
  match depth with
  | O => []
  | S depth' =>
      if dentry_is_root K dentry then []
      else
        let parent := dentry_parent K dentry in
        {| frag_key := key; frag_name := dentry_name K dentry |}
          :: walk_dentry K depth' parent
               {| ino := get_dentry_ino K parent; mount_id := mount_id key |}
  end.

(** Modelled from the spec: [resolve_dentry(dentry, key, 0)], the walk
    bounded by the configured maximum depth.  The third argument is passed
    as [0] at every call site of the two headers. *)
Definition resolve_dentry (K : kernel) (dentry : Z) (key : path_key_t) (_ : Z) : list fragment :=
  walk_dentry K (DENTRY_MAX_DEPTH K) dentry key.

Definition add_pathnames (l : list fragment) (st : state) : state :=
  {| syscalls := syscalls st; events := events st; pathnames := pathnames st ++ l |}.

(** ** Identity context and emitter *)

(** Modelled from the spec: [fill_process_context] stamps the acting
    thread's identity and hands back its process-cache entry, if any. *)
Definition fill_process_context (K : kernel) (cur : Z) : process_context_t * option proc_cache_t :=
  ({| pid := current_tgid K cur; tid := cur |}, get_pid_cache K (current_tgid K cur)).

(** Modelled from the spec: [fill_container_context]; an absent entry
    leaves the zeroed context. *)
Definition fill_container_context (entry : option proc_cache_t) (c : container_context_t) : container_context_t :=
  match entry with
  | Some e => proc_container e
  | None => c
  end.

Definition stamp (ty : event_type) (ev : event) : event :=
  match ev with
  | Chmod_event e =>
      Chmod_event {| ce_event := {| kevent_type := Some ty |};
                     ce_process := ce_process e; ce_container := ce_container e;
                     ce_syscall := ce_syscall e; ce_file := ce_file e;
                     ce_mode := ce_mode e; ce_padding := ce_padding e |}
  | Mount_event e =>
      Mount_event {| me_event := {| kevent_type := Some ty |};
                     me_process := me_process e; me_container := me_container e;
                     me_syscall := me_syscall e; me_mount_id := me_mount_id e;
                     me_group_id := me_group_id e; me_device := me_device e;
                     me_parent_mount_id := me_parent_mount_id e;
                     me_parent_ino := me_parent_ino e; me_root_ino := me_root_ino e;
                     me_root_mount_id := me_root_mount_id e;
                     me_padding := me_padding e; me_fstype := me_fstype e |}
  end.

(** Modelled from the spec: [send_event(ctx, type, event)] stamps the header
    and hands the record to the outbound channel; [events] records every
    record handed over, oldest first. *)
Definition send_event (ty : event_type) (ev : event) (st : state) : state :=
  {| syscalls := syscalls st; events := events st ++ [stamp ty ev]; pathnames := pathnames st |}.

(** [bpf_probe_read_str(dst, size, src)]: at most [size - 1] characters of
    the string at [src]. *)
Definition bpf_probe_read_str (K : kernel) (size : nat) (src : Z) : string :=
  String.substring 0 (size - 1) (kernel_str K src).

(** ** chmod.h *)

(** [chmod_approvers] calls [basename_approver], which no probe of the two
    headers invokes; it is not part of the control flow modelled here. *)

(** [trace__sys_chmod(mode)] *)
Definition trace__sys_chmod (K : kernel) (cur : Z) (mode : Z) (st : state) : Z * state :=
  let policy := fetch_policy K EVENT_CHMOD in
  if is_discarded_by_process K (policy_mode policy) EVENT_CHMOD cur then (0, st)
  else
    let syscall :=
      {| type := EVENT_CHMOD;
         policy := policy;
         setattr := {| setattr_mode := Z.land mode S_IALLUGO;
                       setattr_file := zero_file;
                       setattr_dentry := 0 |};
         mount := zero_mount |} in
    (0, cache_syscall cur syscall st).

(** [do_sys_chmod_ret(ctx, syscall, retval)] *)
Definition do_sys_chmod_ret (K : kernel) (cur : Z) (syscall : syscall_cache_t) (ret : Z) (st : state) : Z * state :=
  if IS_UNHANDLED_ERROR K ret then (0, st)
  else
    let '(process, entry) := fill_process_context K cur in
    let event :=
      {| ce_event := {| kevent_type := None |};
         ce_process := process;
         ce_container := fill_container_context entry {| container_id := "" |};
         ce_syscall := {| retval := ret |};
         ce_file := setattr_file (setattr syscall);
         ce_mode := setattr_mode (setattr syscall);
         ce_padding := 0 |} in
    (0, send_event EVENT_CHMOD (Chmod_event event) st).

(** [handle_sys_chmod_exit(args)], with [args->ret] as [ret]. *)
Definition handle_sys_chmod_exit (K : kernel) (cur : Z) (ret : Z) (st : state) : Z * state :=
  let '(syscall, st) := pop_syscall cur EVENT_CHMOD st in
  match syscall with
  | None => (0, st)
  | Some syscall => do_sys_chmod_ret K cur syscall ret st
  end.

(** [trace__sys_chmod_ret(ctx)], with [PT_REGS_RC(ctx)] as [ret]. *)
Definition trace__sys_chmod_ret (K : kernel) (cur : Z) (ret : Z) (st : state) : Z * state :=
  let '(syscall, st) := pop_syscall cur EVENT_CHMOD st in
  match syscall with
  | None => (0, st)
  | Some syscall => do_sys_chmod_ret K cur syscall ret st
  end.

(** ** mount.h *)

(** [SYSCALL_COMPAT_KPROBE3(mount, source, target, fstype)] *)
Definition sys_mount (K : kernel) (cur : Z) (source target fstype_arg : Z) (st : state) : Z * state :=
  let syscall :=
    {| type := EVENT_MOUNT; policy := zero_policy;
       setattr := zero_setattr; mount := zero_mount |} in
  (0, cache_syscall cur syscall st).

(** [kprobe__attach_recursive_mnt(ctx)], the three [PT_REGS_PARM]s as
    arguments.  The writes through the peeked pointer are collected in [m']
    and stored back at the end. *)
Definition kprobe__attach_recursive_mnt (K : kernel) (cur : Z) (parm1 parm2 parm3 : Z) (st : state) : Z * state :=
  match peek_syscall cur EVENT_MOUNT st with
  | None => (0, st)
  | Some syscall =>
      let src := parm1 in
      let dest := parm2 in
      let mountpoint := parm3 in
      (* resolve root dentry *)
      let dentry := get_vfsmount_dentry K (get_mount_vfsmount K src) in
      let key := {| ino := get_dentry_ino K dentry;
                    mount_id := get_mount_mount_id K src |} in
      let st1 := add_pathnames (resolve_dentry K dentry key 0) st in
      let sb := get_dentry_sb K dentry in
      let s_type := get_super_block_fs K sb in
      let m' := {| src_mnt := src; dest_mnt := dest; dest_mountpoint := mountpoint;
                   root_key := key; fstype := fs_type_name K s_type |} in
      (0, store_syscall cur EVENT_MOUNT (set_mount m' syscall) st1)
  end.

(** [kprobe__propagate_mnt(ctx)]: the same body, with the source mount in
    the third parameter. *)
Definition kprobe__propagate_mnt (K : kernel) (cur : Z) (parm1 parm2 parm3 : Z) (st : state) : Z * state :=
  match peek_syscall cur EVENT_MOUNT st with
  | None => (0, st)
  | Some syscall =>
      let dest := parm1 in
      let mountpoint := parm2 in
      let src := parm3 in
      (* resolve root dentry *)
      let dentry := get_vfsmount_dentry K (get_mount_vfsmount K src) in
      let key := {| ino := get_dentry_ino K dentry;
                    mount_id := get_mount_mount_id K src |} in
      let st1 := add_pathnames (resolve_dentry K dentry key 0) st in
      let sb := get_dentry_sb K dentry in
      let s_type := get_super_block_fs K sb in
      let m' := {| src_mnt := src; dest_mnt := dest; dest_mountpoint := mountpoint;
                   root_key := key; fstype := fs_type_name K s_type |} in
      (0, store_syscall cur EVENT_MOUNT (set_mount m' syscall) st1)
  end.

(** [do_sys_mount_ret(ctx, syscall, retval)] *)
Definition do_sys_mount_ret (K : kernel) (cur : Z) (syscall : syscall_cache_t) (ret : Z) (st : state) : Z * state :=
  if negb (ret =? 0) then (0, st)
  else
    let m := mount syscall in
    let dentry := get_mountpoint_dentry K (dest_mountpoint m) in
    let key := {| ino := get_dentry_ino K dentry;
                  mount_id := get_mount_mount_id K (dest_mnt m) |} in
    let event :=
      {| me_event := {| kevent_type := None |};
         me_process := {| pid := 0; tid := 0 |};
         me_container := {| container_id := "" |};
         me_syscall := {| retval := ret |};
         me_mount_id := get_mount_mount_id K (src_mnt m);
         me_group_id := get_mount_peer_group_id K (src_mnt m);
         me_device := get_mount_dev K (src_mnt m);
         me_parent_mount_id := mount_id key;
         me_parent_ino := ino key;
         me_root_ino := ino (root_key m);
         me_root_mount_id := mount_id (root_key m);
         me_padding := 0;
         me_fstype := bpf_probe_read_str K FSTYPE_LEN (fstype m) |} in
    if (me_mount_id event =? 0) && (me_device event =? 0) then (0, st)
    else
      let '(process, entry) := fill_process_context K cur in
      let event' :=
        {| me_event := me_event event;
           me_process := process;
           me_container := fill_container_context entry (me_container event);
           me_syscall := me_syscall event;
           me_mount_id := me_mount_id event;
           me_group_id := me_group_id event;
           me_device := me_device event;
           me_parent_mount_id := me_parent_mount_id event;
           me_parent_ino := me_parent_ino event;
           me_root_ino := me_root_ino event;
           me_root_mount_id := me_root_mount_id event;
           me_padding := me_padding event;
           me_fstype := me_fstype event |} in
      let st1 := add_pathnames (resolve_dentry K dentry key 0) st in
      (0, send_event EVENT_MOUNT (Mount_event event') st1).

(** [handle_sys_mount_exit(args)] *)
Definition handle_sys_mount_exit (K : kernel) (cur : Z) (ret : Z) (st : state) : Z * state :=
  let '(syscall, st) := pop_syscall cur EVENT_MOUNT st in
  match syscall with
  | None => (0, st)
  | Some syscall => do_sys_mount_ret K cur syscall ret st
  end.

(** [SYSCALL_COMPAT_KRETPROBE(mount)] *)
Definition sys_mount_ret (K : kernel) (cur : Z) (ret : Z) (st : state) : Z * state :=
  let '(syscall, st) := pop_syscall cur EVENT_MOUNT st in
  match syscall with
  | None => (0, st)
  | Some syscall => do_sys_mount_ret K cur syscall ret st
  end.

(** ** The mode-change hook *)

(** Modelled from the spec: the intermediate hook of the mode-change family
    is in [setattr.h] ("dentry resolution in setattr.h"), which is not among
    the sources.  An intermediate hook "mutates the cached entry" of the
    current thread and is a no-op when none is in flight; this one records
    the target's directory entry and its (mount id, inode) key, and resolves
    the entry. *)
Definition setattr_hook (K : kernel) (cur : Z) (dentry : Z) (key : path_key_t) (st : state) : Z * state :=
  match peek_syscall cur EVENT_CHMOD st with
  | None => (0, st)
  | Some syscall =>
      let s := {| setattr_mode := setattr_mode (setattr syscall);
                  setattr_file := {| path_key := key;
                                     file_flags := file_flags (setattr_file (setattr syscall)) |};
                  setattr_dentry := dentry |} in
      let st1 := add_pathnames (resolve_dentry K dentry key 0) st in
      (0, store_syscall cur EVENT_CHMOD (set_setattr s syscall) st1)
  end.

(** ** Probes and runs *)

(** The attachment points of the two headers, with the arguments each
    receives. *)
Inductive probe :=
| kprobe_chmod (filename mode : Z)
| kprobe_fchmod (fd mode : Z)
| kprobe_fchmodat (dirfd filename mode : Z)
| kretprobe_chmod (ret : Z)
| kretprobe_fchmod (ret : Z)
| kretprobe_fchmodat (ret : Z)
| tracepoint_chmod_exit (ret : Z)
| kprobe_setattr (dentry : Z) (key : path_key_t)
| kprobe_mount (source target fstype_arg : Z)
| kprobe_attach_recursive_mnt (parm1 parm2 parm3 : Z)
| kprobe_propagate_mnt (parm1 parm2 parm3 : Z)
| kretprobe_mount (ret : Z)
| tracepoint_mount_exit (ret : Z).

(** One probe firing on thread [cur]. *)
Definition fire (K : kernel) (cur : Z) (p : probe) (st : state) : Z * state :=
  match p with
  | kprobe_chmod _ mode => trace__sys_chmod K cur mode st
  | kprobe_fchmod _ mode => trace__sys_chmod K cur mode st
  | kprobe_fchmodat _ _ mode => trace__sys_chmod K cur mode st
  | kretprobe_chmod ret => trace__sys_chmod_ret K cur ret st
  | kretprobe_fchmod ret => trace__sys_chmod_ret K cur ret st
  | kretprobe_fchmodat ret => trace__sys_chmod_ret K cur ret st
  | tracepoint_chmod_exit ret => handle_sys_chmod_exit K cur ret st
  | kprobe_setattr dentry key => setattr_hook K cur dentry key st
  | kprobe_mount source target fstype_arg => sys_mount K cur source target fstype_arg st
  | kprobe_attach_recursive_mnt p1 p2 p3 => kprobe__attach_recursive_mnt K cur p1 p2 p3 st
  | kprobe_propagate_mnt p1 p2 p3 => kprobe__propagate_mnt K cur p1 p2 p3 st
  | kretprobe_mount ret => sys_mount_ret K cur ret st
  | tracepoint_mount_exit ret => handle_sys_mount_exit K cur ret st
  end.

(** A run: probes fire one after the other, each on its own thread. *)
Definition run (K : kernel) (trace : list (Z * probe)) (st : state) : state :=
  fold_left (λ s tp, (fire K tp.1 tp.2 s).2) trace st.

(** The syscall family a probe belongs to. *)
Definition family (p : probe) : event_type :=
  match p with
  | kprobe_chmod _ _ | kprobe_fchmod _ _ | kprobe_fchmodat _ _ _
  | kretprobe_chmod _ | kretprobe_fchmod _ | kretprobe_fchmodat _
  | tracepoint_chmod_exit _ | kprobe_setattr _ _ => EVENT_CHMOD
  | _ => EVENT_MOUNT
  end.

(** Entry and exit probes; the others are intermediate hooks. *)
Definition is_entry (p : probe) : bool :=
  match p with
  | kprobe_chmod _ _ | kprobe_fchmod _ _ | kprobe_fchmodat _ _ _
  | kprobe_mount _ _ _ => true
  | _ => false
  end.

Definition is_exit (p : probe) : bool :=
  match p with
  | kretprobe_chmod _ | kretprobe_fchmod _ | kretprobe_fchmodat _
  | tracepoint_chmod_exit _ | kretprobe_mount _ | tracepoint_mount_exit _ => true
  | _ => false
  end.

(** The return value an exit probe carries. *)
Definition exit_ret (p : probe) : Z :=
  match p with
  | kretprobe_chmod r | kretprobe_fchmod r | kretprobe_fchmodat r
  | tracepoint_chmod_exit r | kretprobe_mount r | tracepoint_mount_exit r => r
  | _ => 0
  end.

(** The thread and family an emitted event belongs to. *)
Definition event_tid (ev : event) : Z :=
  match ev with
  | Chmod_event e => tid (ce_process e)
  | Mount_event e => tid (me_process e)
  end.

Definition event_family (ev : event) : event_type :=
  match ev with
  | Chmod_event _ => EVENT_CHMOD
  | Mount_event _ => EVENT_MOUNT
  end.

(** The events emitted so far for thread [t] and family [ty]. *)
Definition emitted_for (t : Z) (ty : event_type) (st : state) : list event :=
  filter (λ ev, event_tid ev = t ∧ event_family ev = ty) (events st).

(** States the engine can be in: any run from the empty maps. *)
Definition reachable (K : kernel) (st : state) : Prop :=
  ∃ trace, st = run K trace init_state.

(** ** Vocabulary of the properties *)

(** The record [do_sys_chmod_ret] assembles. *)
Definition chmod_event_of (K : kernel) (cur : Z) (syscall : syscall_cache_t) (ret : Z) : event :=
  Chmod_event
    {| ce_event := {| kevent_type := Some EVENT_CHMOD |};
       ce_process := {| pid := current_tgid K cur; tid := cur |};
       ce_container :=
         fill_container_context (get_pid_cache K (current_tgid K cur))
           {| container_id := "" |};
       ce_syscall := {| retval := ret |};
       ce_file := setattr_file (setattr syscall);
       ce_mode := setattr_mode (setattr syscall);
       ce_padding := 0 |}.

(** The record [do_sys_mount_ret] assembles when it publishes. *)
Definition mount_event_of (K : kernel) (cur : Z) (syscall : syscall_cache_t) (ret : Z) : event :=
  let m := mount syscall in
  Mount_event
    {| me_event := {| kevent_type := Some EVENT_MOUNT |};
       me_process := {| pid := current_tgid K cur; tid := cur |};
       me_container :=
         fill_container_context (get_pid_cache K (current_tgid K cur))
           {| container_id := "" |};
       me_syscall := {| retval := ret |};
       me_mount_id := get_mount_mount_id K (src_mnt m);
       me_group_id := get_mount_peer_group_id K (src_mnt m);
       me_device := get_mount_dev K (src_mnt m);
       me_parent_mount_id := get_mount_mount_id K (dest_mnt m);
       me_parent_ino := get_dentry_ino K (get_mountpoint_dentry K (dest_mountpoint m));
       me_root_ino := ino (root_key m);
       me_root_mount_id := mount_id (root_key m);
       me_padding := 0;
       me_fstype := bpf_probe_read_str K FSTYPE_LEN (fstype m) |}.

(** The guard of [do_sys_mount_ret]: the source mount reads as all zero. *)
Definition mount_guard (K : kernel) (syscall : syscall_cache_t) : bool :=
  (get_mount_mount_id K (src_mnt (mount syscall)) =? 0)
  && (get_mount_dev K (src_mnt (mount syscall)) =? 0).

(** The filter the entry side consults: the process discarders under the
    mode of the type's policy. *)
Definition filter_admits (K : kernel) (ty : event_type) (cur : Z) : bool :=
  negb (is_discarded_by_process K (policy_mode (fetch_policy K ty)) ty cur).

(** The [mode] argument of the three mode-change entry probes. *)
Definition entry_mode (p : probe) : Z :=
  match p with
  | kprobe_chmod _ mode | kprobe_fchmod _ mode | kprobe_fchmodat _ _ mode => mode
  | _ => 0
  end.

(** The entries the two families park. *)
Definition chmod_entry (K : kernel) (mode : Z) : syscall_cache_t :=
  {| type := EVENT_CHMOD;
     policy := fetch_policy K EVENT_CHMOD;
     setattr := {| setattr_mode := Z.land mode S_IALLUGO;
                   setattr_file := zero_file; setattr_dentry := 0 |};
     mount := zero_mount |}.

Definition mount_entry : syscall_cache_t :=
  {| type := EVENT_MOUNT; policy := zero_policy;
     setattr := zero_setattr; mount := zero_mount |}.

(** Probes that may fire while an occurrence of family [ty] is in flight on
    thread [t]: anything of another thread or family, and the hooks of its
    own. *)
Definition intermediate (t : Z) (ty : event_type) (tp : Z * probe) : bool :=
  negb (bool_decide ((tp.1, family tp.2) = (t, ty)))
  || (negb (is_entry tp.2) && negb (is_exit tp.2)).

(** Probes of another thread or family only. *)
Definition foreign (t : Z) (ty : event_type) (tp : Z * probe) : bool :=
  negb (bool_decide ((tp.1, family tp.2) = (t, ty))).

(** What the hooks keep of a slot: whether it is occupied, and the fields
    written at entry. *)
Definition slot_kept (o o' : option syscall_cache_t) : Prop :=
  match o, o' with
  | None, None => True
  | Some sc, Some sc' =>
      type sc' = type sc ∧ policy sc' = policy sc
      ∧ setattr_mode (setattr sc') = setattr_mode (setattr sc)
  | _, _ => False
  end.

(** Every pending entry sits under its own type tag, and a mode-change
    entry is only ever pending for a thread the filter admits. *)
Definition cache_inv (K : kernel) (st : state) : Prop :=
  ∀ t ty sc, syscalls st !! (t, ty) = Some sc →
    type sc = ty ∧ (ty = EVENT_CHMOD → filter_admits K EVENT_CHMOD t = true).

(** The return values an exit probe does not report: those the
    [IS_UNHANDLED_ERROR] classification selects for the mode-change family,
    every non-zero one for mount. *)
Definition unhandled (K : kernel) (p : probe) : bool :=
  match family p with
  | EVENT_CHMOD => IS_UNHANDLED_ERROR K (exit_ret p)
  | EVENT_MOUNT => negb (exit_ret p =? 0)
  end.

(** The handles a walk steps through. *)
Fixpoint ancestors (K : kernel) (n : nat) (dentry : Z) : list Z :=
  match n with
  | O => []
  | S n' => dentry :: ancestors K n' (dentry_parent K dentry)
  end.


(** The two mount hooks, and the source mount, destination mount and
    mountpoint each receives: [attach_recursive_mnt(source_mnt, dest_mnt,
    dest_mp)] against [propagate_mnt(dest_mnt, dest_mp, source_mnt)]. *)
Definition is_mount_hook (p : probe) : bool :=
  match p with
  | kprobe_attach_recursive_mnt _ _ _ | kprobe_propagate_mnt _ _ _ => true
  | _ => false
  end.

Definition hook_src (p : probe) : Z :=
  match p with
  | kprobe_attach_recursive_mnt parm1 _ _ => parm1
  | kprobe_propagate_mnt _ _ parm3 => parm3
  | _ => 0
  end.

Definition hook_dest (p : probe) : Z :=
  match p with
  | kprobe_attach_recursive_mnt _ parm2 _ => parm2
  | kprobe_propagate_mnt parm1 _ _ => parm1
  | _ => 0
  end.

Definition hook_mountpoint (p : probe) : Z :=
  match p with
  | kprobe_attach_recursive_mnt _ _ parm3 => parm3
  | kprobe_propagate_mnt _ parm2 _ => parm2
  | _ => 0
  end.

(** The root dentry of a mount, as the hooks reach it. *)
Definition mount_root_dentry (K : kernel) (mnt : Z) : Z :=
  get_vfsmount_dentry K (get_mount_vfsmount K mnt).

(** Whether the slot of [(t, ty)] is occupied, as a number. *)
Definition occupancy (t : Z) (ty : event_type) (st : state) : nat :=
  match syscalls st !! (t, ty) with
  | Some _ => 1
  | None => 0
  end.

(** How many entry probes of family [ty] fire on thread [t] in a trace, and
    how many exit probes fire in it at all. *)
Definition entries_in (t : Z) (ty : event_type) (trace : list (Z * probe)) : nat :=
  length (filter (λ tp, tp.1 = t ∧ family tp.2 = ty ∧ is_entry tp.2 = true) trace).

Definition exits_in (trace : list (Z * probe)) : nat :=
  length (filter (λ tp, is_exit tp.2 = true) trace).

Definition all_entries_in (trace : list (Z * probe)) : nat :=
  length (filter (λ tp, is_entry tp.2 = true) trace).

(** What a consumer may rely on for a record of either family. *)
Definition chmod_event_ok (K : kernel) (e : chmod_event_t) : Prop :=
  kevent_type (ce_event e) = Some EVENT_CHMOD
  ∧ IS_UNHANDLED_ERROR K (retval (ce_syscall e)) = false
  ∧ 0 ≤ ce_mode e ≤ 0xfff
  ∧ ce_padding e = 0
  ∧ filter_admits K EVENT_CHMOD (tid (ce_process e)) = true.

Definition mount_event_ok (K : kernel) (e : mount_event_t) : Prop :=
  kevent_type (me_event e) = Some EVENT_MOUNT
  ∧ retval (me_syscall e) = 0
  ∧ ¬ (me_mount_id e = 0 ∧ me_device e = 0)
  ∧ (String.length (me_fstype e) < FSTYPE_LEN)%nat
  ∧ me_padding e = 0.

Definition event_ok (K : kernel) (ev : event) : Prop :=
  match ev with
  | Chmod_event e => chmod_event_ok K e
  | Mount_event e => mount_event_ok K e
  end.

(** Pending mode-change entries keep a masked mode; published records are
    well formed. *)
Definition channel_inv (K : kernel) (st : state) : Prop :=
  (∀ t sc, syscalls st !! (t, EVENT_CHMOD) = Some sc →
     0 ≤ setattr_mode (setattr sc) ≤ 0xfff
     ∧ filter_admits K EVENT_CHMOD t = true)
  ∧ (∀ ev, ev ∈ events st → event_ok K ev).

(** The root key of a pending mount entry names the mount of its source
    handle, and so does the root key of every published mount record. *)
Definition root_inv (K : kernel) (st : state) : Prop :=
  (∀ t sc, syscalls st !! (t, EVENT_MOUNT) = Some sc →
     mount_id (root_key (mount sc)) = get_mount_mount_id K (src_mnt (mount sc)))
  ∧ (∀ e, Mount_event e ∈ events st → me_root_mount_id e = me_mount_id e).

(** Two states that agree on the slot of [(t, ty)] and on what was
    published for it. *)
Definition agree (t : Z) (ty : event_type) (st st' : state) : Prop :=
  syscalls st !! (t, ty) = syscalls st' !! (t, ty)
  ∧ emitted_for t ty st = emitted_for t ty st'.


(** ** Sample kernels *)

(** The error classification used by the samples: negative return values
    other than -EACCES and -EPERM are not reported. *)
Definition sample_unhandled (ret : Z) : bool :=
  (ret <? 0) && negb (ret =? -13) && negb (ret =? -1).

(** A small kernel image.  Mount [0x1000] (id 27, device 2049) has root
    dentry [0x2000]; mountpoint [0x3000] sits on dentry [0x2100] of mount
    [0x1100] (id 22).  Dentries [0x2100] "mnt" and [0x2200] "passwd" hang
    under the root [0x2000]; [0x5000] and [0x5001] are each other's parent.
    Reads through any other handle yield zero. *)
Definition sample_kernel : kernel :=
  {| fetch_policy := λ _, {| policy_mode := 1; policy_flags := 0 |};
     is_discarded_by_process := λ _ _ _, false;
     IS_UNHANDLED_ERROR := sample_unhandled;
     get_mount_mount_id := λ p, if p =? 0x1000 then 27 else if p =? 0x1100 then 22 else 0;
     get_mount_peer_group_id := λ p, if p =? 0x1000 then 5 else 0;
     get_mount_dev := λ p, if p =? 0x1000 then 2049 else if p =? 0x1100 then 2050 else 0;
     get_mount_vfsmount := λ p, if p =? 0 then 0 else p + 32;
     get_vfsmount_dentry := λ p, if p =? 0x1020 then 0x2000 else 0;
     get_mountpoint_dentry := λ p, if p =? 0x3000 then 0x2100 else 0;
     get_dentry_ino := λ p, if p =? 0x2000 then 2 else if p =? 0x2100 then 131 else
                            if p =? 0x2200 then 977 else 0;
     get_dentry_sb := λ p, if p =? 0x2000 then 0x4000 else 0;
     get_super_block_fs := λ p, if p =? 0x4000 then 0x4100 else 0;
     fs_type_name := λ p, if p =? 0x4100 then 0x4200 else 0;
     kernel_str := λ p, if p =? 0x4200 then "ext4" else "";
     dentry_parent := λ p, if p =? 0x5000 then 0x5001 else if p =? 0x5001 then 0x5000 else
                           if p =? 0x2100 then 0x2000 else if p =? 0x2200 then 0x2000 else p;
     dentry_name := λ p, if p =? 0x2100 then "mnt" else if p =? 0x2200 then "passwd" else "/";
     dentry_is_root := λ p, negb ((p =? 0x5000) || (p =? 0x5001) || (p =? 0x2100) || (p =? 0x2200));
     current_tgid := λ t, t;
     get_pid_cache := λ _, None;
     DENTRY_MAX_DEPTH := 16 |}.

(** The same image under a policy whose discarders reject every call of
    every type. *)
Definition discard_kernel : kernel :=
  {| fetch_policy := fetch_policy sample_kernel;
     is_discarded_by_process := λ _ _ _, true;
     IS_UNHANDLED_ERROR := IS_UNHANDLED_ERROR sample_kernel;
     get_mount_mount_id := get_mount_mount_id sample_kernel;
     get_mount_peer_group_id := get_mount_peer_group_id sample_kernel;
     get_mount_dev := get_mount_dev sample_kernel;
     get_mount_vfsmount := get_mount_vfsmount sample_kernel;
     get_vfsmount_dentry := get_vfsmount_dentry sample_kernel;
     get_mountpoint_dentry := get_mountpoint_dentry sample_kernel;
     get_dentry_ino := get_dentry_ino sample_kernel;
     get_dentry_sb := get_dentry_sb sample_kernel;
     get_super_block_fs := get_super_block_fs sample_kernel;
     fs_type_name := fs_type_name sample_kernel;
     kernel_str := kernel_str sample_kernel;
     dentry_parent := dentry_parent sample_kernel;
     dentry_name := dentry_name sample_kernel;
     dentry_is_root := dentry_is_root sample_kernel;
     current_tgid := current_tgid sample_kernel;
     get_pid_cache := get_pid_cache sample_kernel;
     DENTRY_MAX_DEPTH := DENTRY_MAX_DEPTH sample_kernel |}.

(** * Properties *)

(** ** Runs *)

Lemma run_nil K st : run K [] st = st.
Proof. reflexivity. Qed.

Lemma run_cons K tp trace st :
  run K (tp :: trace) st = run K trace (fire K tp.1 tp.2 st).2.
Proof. reflexivity. Qed.

Lemma run_app K t1 t2 st : run K (t1 ++ t2) st = run K t2 (run K t1 st).
Proof. unfold run. apply fold_left_app. Qed.

Lemma reachable_init K : reachable K init_state.
Proof. by exists []. Qed.

Lemma reachable_fire K cur p st :
  reachable K st → reachable K (fire K cur p st).2.
Proof.
  intros [trace ->]. exists (trace ++ [(cur, p)]).
  by rewrite run_app.
Qed.

Lemma reachable_run K trace st : reachable K st → reachable K (run K trace st).
Proof.
  intros [t0 ->]. exists (t0 ++ trace). by rewrite run_app.
Qed.

(** ** Handlers, one probe at a time *)

Ltac handlers :=
  unfold fire, trace__sys_chmod, trace__sys_chmod_ret, handle_sys_chmod_exit,
    sys_mount, kprobe__attach_recursive_mnt, kprobe__propagate_mnt,
    handle_sys_mount_exit, sys_mount_ret, setattr_hook,
    do_sys_chmod_ret, do_sys_mount_ret,
    pop_syscall, peek_syscall, cache_syscall, store_syscall,
    send_event, add_pathnames, set_syscalls, fill_process_context in *.

(** Every probe returns 0 to the kernel. *)
Lemma fire_ret K cur p st : (fire K cur p st).1 = 0.
Proof.
  destruct p; handlers; simpl; repeat case_match; simplify_eq; done.
Qed.

(** A probe touches at most the slot of its own thread and family. *)
Lemma fire_syscalls_frame K cur p st k :
  k ≠ (cur, family p) →
  syscalls (fire K cur p st).2 !! k = syscalls st !! k.
Proof.
  intros Hk.
  destruct p; handlers; simpl in *; repeat case_match; simplify_eq; simpl;
    rewrite ?lookup_insert_ne, ?lookup_delete_ne; done.
Qed.

Lemma set_syscalls_id st : set_syscalls (syscalls st) st = st.
Proof. by destruct st. Qed.

(** Entry probes and hooks publish nothing. *)
Lemma fire_events_quiet K cur p st :
  is_exit p = false → events (fire K cur p st).2 = events st.
Proof.
  intros Hp.
  destruct p; try discriminate Hp; handlers; simpl; repeat case_match; done.
Qed.

(** Any probe publishes at most one event, for its own thread and family. *)
Lemma fire_events K cur p st :
  events (fire K cur p st).2 = events st ∨
  ∃ ev, events (fire K cur p st).2 = events st ++ [ev] ∧
        event_tid ev = cur ∧ event_family ev = family p.
Proof.
  destruct p; handlers; simpl; repeat case_match; simplify_eq; simpl;
    eauto.
Qed.

Lemma emitted_for_snoc t ty st st' ev :
  events st' = events st ++ [ev] →
  emitted_for t ty st' =
    emitted_for t ty st ++
      (if decide (event_tid ev = t ∧ event_family ev = ty) then [ev] else []).
Proof.
  intros H. unfold emitted_for. rewrite H, filter_app. reflexivity.
Qed.

Lemma emitted_for_same t ty st st' :
  events st' = events st → emitted_for t ty st' = emitted_for t ty st.
Proof. unfold emitted_for. by intros ->. Qed.

(** Probes of another thread or family publish nothing for [(t, ty)]. *)
Lemma fire_emitted_frame K cur p st t ty :
  (t, ty) ≠ (cur, family p) →
  emitted_for t ty (fire K cur p st).2 = emitted_for t ty st.
Proof.
  intros Hk. destruct (fire_events K cur p st) as [H|(ev & H & Ht & Hf)].
  - by apply emitted_for_same.
  - rewrite (emitted_for_snoc _ _ _ _ _ H). case_decide as Hd.
    + destruct Hd; congruence.
    + by rewrite app_nil_r.
Qed.

(** *** Exit probes *)

(** An exit probe that finds nothing pending leaves the state as it is. *)
Lemma exit_absent K cur p st :
  is_exit p = true →
  syscalls st !! (cur, family p) = None →
  fire K cur p st = (0, st).
Proof.
  intros Hp Hnone.
  destruct p; try discriminate Hp; handlers; simpl in *; rewrite Hnone;
    rewrite delete_id by done; by destruct st.
Qed.

(** An exit probe that finds [syscall] pending removes it and hands it to
    the family's [do_sys_*_ret]. *)
Lemma chmod_exit_present K cur p st syscall :
  is_exit p = true → family p = EVENT_CHMOD →
  syscalls st !! (cur, EVENT_CHMOD) = Some syscall →
  fire K cur p st =
    do_sys_chmod_ret K cur syscall (exit_ret p)
      (set_syscalls (delete (cur, EVENT_CHMOD) (syscalls st)) st).
Proof.
  intros Hp Hf Hsome.
  destruct p; try discriminate Hp; try discriminate Hf;
    unfold fire, trace__sys_chmod_ret, handle_sys_chmod_exit, pop_syscall;
    by rewrite Hsome.
Qed.

Lemma mount_exit_present K cur p st syscall :
  is_exit p = true → family p = EVENT_MOUNT →
  syscalls st !! (cur, EVENT_MOUNT) = Some syscall →
  fire K cur p st =
    do_sys_mount_ret K cur syscall (exit_ret p)
      (set_syscalls (delete (cur, EVENT_MOUNT) (syscalls st)) st).
Proof.
  intros Hp Hf Hsome.
  destruct p; try discriminate Hp; try discriminate Hf;
    unfold fire, sys_mount_ret, handle_sys_mount_exit, pop_syscall;
    by rewrite Hsome.
Qed.

(** After an exit probe nothing is pending for its thread and family. *)
Lemma exit_clears K cur p st :
  is_exit p = true → syscalls (fire K cur p st).2 !! (cur, family p) = None.
Proof.
  intros Hp.
  destruct p; try discriminate Hp; handlers; simpl; repeat case_match;
    simplify_eq; simpl; by rewrite lookup_delete_eq.
Qed.

Lemma do_sys_chmod_ret_handled K cur syscall ret st :
  IS_UNHANDLED_ERROR K ret = false →
  do_sys_chmod_ret K cur syscall ret st =
    (0, {| syscalls := syscalls st;
           events := events st ++ [chmod_event_of K cur syscall ret];
           pathnames := pathnames st |}).
Proof. intros H. unfold do_sys_chmod_ret. by rewrite H. Qed.

Lemma do_sys_chmod_ret_unhandled K cur syscall ret st :
  IS_UNHANDLED_ERROR K ret = true →
  do_sys_chmod_ret K cur syscall ret st = (0, st).
Proof. intros H. unfold do_sys_chmod_ret. by rewrite H. Qed.

Lemma do_sys_mount_ret_error K cur syscall ret st :
  ret ≠ 0 → do_sys_mount_ret K cur syscall ret st = (0, st).
Proof.
  intros H. unfold do_sys_mount_ret.
  destruct (Z.eqb_spec ret 0); [done|]. done.
Qed.

Lemma do_sys_mount_ret_guarded K cur syscall st :
  mount_guard K syscall = true →
  do_sys_mount_ret K cur syscall 0 st = (0, st).
Proof.
  unfold mount_guard, do_sys_mount_ret. simpl. by intros ->.
Qed.

Lemma do_sys_mount_ret_published K cur syscall st :
  mount_guard K syscall = false →
  ∃ frags,
    do_sys_mount_ret K cur syscall 0 st =
      (0, {| syscalls := syscalls st;
             events := events st ++ [mount_event_of K cur syscall 0];
             pathnames := pathnames st ++ frags |}).
Proof.
  unfold mount_guard, do_sys_mount_ret. simpl. intros ->.
  eexists. reflexivity.
Qed.

(** *** Entry probes *)

Lemma chmod_entry_admitted K cur p st :
  is_entry p = true → family p = EVENT_CHMOD →
  filter_admits K EVENT_CHMOD cur = true →
  fire K cur p st = (0, cache_syscall cur (chmod_entry K (entry_mode p)) st).
Proof.
  unfold filter_admits. intros Hp Hf Ha. apply negb_true_iff in Ha.
  destruct p; try discriminate Hp; try discriminate Hf;
    unfold fire, trace__sys_chmod; by rewrite Ha.
Qed.

Lemma chmod_entry_discarded K cur p st :
  is_entry p = true → family p = EVENT_CHMOD →
  filter_admits K EVENT_CHMOD cur = false →
  fire K cur p st = (0, st).
Proof.
  unfold filter_admits. intros Hp Hf Ha. apply negb_false_iff in Ha.
  destruct p; try discriminate Hp; try discriminate Hf;
    unfold fire, trace__sys_chmod; by rewrite Ha.
Qed.

Lemma mount_entry_always K cur p st :
  is_entry p = true → family p = EVENT_MOUNT →
  fire K cur p st = (0, cache_syscall cur mount_entry st).
Proof.
  intros Hp Hf. by destruct p; try discriminate Hp; try discriminate Hf.
Qed.

Lemma lookup_cache_syscall cur syscall st :
  syscalls (cache_syscall cur syscall st) !! (cur, type syscall) = Some syscall.
Proof. unfold cache_syscall. simpl. apply lookup_insert_eq. Qed.

Lemma events_cache_syscall cur syscall st :
  events (cache_syscall cur syscall st) = events st.
Proof. reflexivity. Qed.

(** *** Between entry and exit *)

Lemma slot_kept_refl o : slot_kept o o.
Proof. by destruct o. Qed.

Lemma slot_kept_trans o1 o2 o3 :
  slot_kept o1 o2 → slot_kept o2 o3 → slot_kept o1 o3.
Proof.
  destruct o1, o2, o3; simpl; try done.
  intros (? & ? & ?) (? & ? & ?). repeat split; congruence.
Qed.

Lemma fire_hook_slot K cur p st :
  is_entry p = false → is_exit p = false →
  slot_kept (syscalls st !! (cur, family p))
            (syscalls (fire K cur p st).2 !! (cur, family p)).
Proof.
  intros He Hx.
  destruct p; try discriminate He; try discriminate Hx; handlers; simpl;
    destruct (syscalls st !! _) eqn:E; simpl; rewrite ?E, ?lookup_insert_eq;
    done.
Qed.

Lemma fire_intermediate K t ty cur p st :
  intermediate t ty (cur, p) = true →
  slot_kept (syscalls st !! (t, ty)) (syscalls (fire K cur p st).2 !! (t, ty))
  ∧ emitted_for t ty (fire K cur p st).2 = emitted_for t ty st.
Proof.
  unfold intermediate. simpl. intros H.
  destruct (decide ((cur, family p) = (t, ty))) as [[= <- <-]|Hne].
  - rewrite bool_decide_eq_true_2 in H by done. simpl in H.
    apply andb_true_iff in H as [He Hx].
    apply negb_true_iff in He, Hx. split.
    + by apply fire_hook_slot.
    + apply emitted_for_same. by apply fire_events_quiet.
  - split.
    + rewrite fire_syscalls_frame by congruence. apply slot_kept_refl.
    + apply fire_emitted_frame. congruence.
Qed.

Lemma run_intermediate K t ty mid st :
  forallb (intermediate t ty) mid = true →
  slot_kept (syscalls st !! (t, ty)) (syscalls (run K mid st) !! (t, ty))
  ∧ emitted_for t ty (run K mid st) = emitted_for t ty st.
Proof.
  revert st. induction mid as [|[cur p] mid IH]; intros st H; simpl in H.
  - split; [apply slot_kept_refl | done].
  - apply andb_true_iff in H as [H1 H2].
    rewrite run_cons. simpl.
    destruct (fire_intermediate K t ty cur p st H1) as [Hs He].
    destruct (IH (fire K cur p st).2 H2) as [Hs' He'].
    split; [by eapply slot_kept_trans | congruence].
Qed.

Lemma run_foreign K t ty mid st :
  forallb (foreign t ty) mid = true →
  syscalls (run K mid st) !! (t, ty) = syscalls st !! (t, ty)
  ∧ emitted_for t ty (run K mid st) = emitted_for t ty st.
Proof.
  revert st. induction mid as [|[cur p] mid IH]; intros st H; simpl in H.
  - done.
  - apply andb_true_iff in H as [H1 H2]. unfold foreign in H1. simpl in H1.
    apply negb_true_iff, bool_decide_eq_false in H1.
    rewrite run_cons. simpl.
    destruct (IH (fire K cur p st).2 H2) as [Hs He].
    rewrite Hs, He. split.
    + apply fire_syscalls_frame. congruence.
    + apply fire_emitted_frame. congruence.
Qed.

(** ** Invariants of reachable states *)

Lemma cache_inv_init K : cache_inv K init_state.
Proof. intros t ty sc H. simpl in H. by rewrite lookup_empty in H. Qed.

Lemma cache_inv_fire K cur p st :
  cache_inv K st → cache_inv K (fire K cur p st).2.
Proof.
  intros Hinv t ty sc.
  destruct (decide ((t, ty) = (cur, family p))) as [[= -> ->]|Hne].
  2: { rewrite fire_syscalls_frame by done. apply Hinv. }
  destruct p; handlers; simpl; repeat case_match; simplify_eq; simpl;
    rewrite ?lookup_insert_eq, ?lookup_delete_eq; try done;
    try (by apply Hinv);
    intros [= <-]; simpl.
  all: try (split; [done|intros _; unfold filter_admits; by apply negb_true_iff]).
  all: try (split; [done|discriminate]).
  all: match goal with H : syscalls _ !! _ = Some _ |- _ => by apply Hinv in H end.
Qed.

Lemma cache_inv_reachable K st : reachable K st → cache_inv K st.
Proof.
  intros [trace ->]. induction trace as [|[cur p] trace IH] using rev_ind.
  - apply cache_inv_init.
  - rewrite run_app. apply (cache_inv_fire K cur p _ IH).
Qed.

(** ** Exit without a pending entry *)

(** C4.  Whenever the pop of an exit handler (tracepoint or kretprobe, of
    either family) returns absent for the current thread and syscall type,
    the handler is a silent no-op: it returns 0 and leaves the whole state
    (cache, outbound events, path fragments) exactly as it was. *)
Theorem exit_pop_absent_noop K cur p st :
  is_exit p = true →
  (pop_syscall cur (family p) st).1 = None →
  (fire K cur p st).1 = 0
  ∧ events (fire K cur p st).2 = events st
  ∧ (fire K cur p st).2 = st.
Proof.
  intros Hp Hpop. unfold pop_syscall in Hpop. simpl in Hpop.
  by rewrite (exit_absent K cur p st Hp Hpop).
Qed.

(** The exit of an occurrence the discarders rejected at entry. *)
Lemma exit_pop_absent_noop_witness :
  let st := run discard_kernel [(7, kprobe_chmod 0 0x1a4)] init_state in
  (fire discard_kernel 7 (tracepoint_chmod_exit 0) st).1 = 0
  ∧ events (fire discard_kernel 7 (tracepoint_chmod_exit 0) st).2 = events st
  ∧ (fire discard_kernel 7 (tracepoint_chmod_exit 0) st).2 = st.
Proof.
  intros st.
  apply (exit_pop_absent_noop discard_kernel 7 (tracepoint_chmod_exit 0) st);
    reflexivity.
Defined.

(** ** Unhandled return values *)

(** C5.  An exit whose return value is classified as an unhandled error
    ([IS_UNHANDLED_ERROR] for mode-change, any non-zero value for mount)
    publishes no event, whatever is pending for the thread. *)
Theorem unhandled_exit_emits_nothing K cur p st :
  is_exit p = true →
  unhandled K p = true →
  events (fire K cur p st).2 = events st.
Proof.
  intros Hp Hu.
  destruct (syscalls st !! (cur, family p)) as [sc|] eqn:E.
  - unfold unhandled in Hu. destruct (family p) eqn:Hf.
    + rewrite (chmod_exit_present K cur p st sc Hp Hf E).
      by rewrite do_sys_chmod_ret_unhandled.
    + rewrite (mount_exit_present K cur p st sc Hp Hf E).
      rewrite do_sys_mount_ret_error; [done|].
      apply negb_true_iff in Hu. by apply Z.eqb_neq.
  - by rewrite (exit_absent K cur p st Hp E).
Qed.

(** A mount that fails with -ENOENT after its hook fired. *)
Lemma unhandled_exit_emits_nothing_witness :
  let st := run sample_kernel
              [(7, kprobe_mount 0 0 0);
               (7, kprobe_attach_recursive_mnt 0x1000 0x1100 0x3000)]
              init_state in
  events (fire sample_kernel 7 (kretprobe_mount (-2)) st).2 = events st.
Proof.
  intros st.
  apply (unhandled_exit_emits_nothing sample_kernel 7 (kretprobe_mount (-2)) st);
    reflexivity.
Defined.

(** ** Path walk *)

Lemma walk_dentry_length K depth dentry key :
  (length (walk_dentry K depth dentry key) ≤ depth)%nat.
Proof.
  revert dentry key. induction depth as [|depth IH]; intros dentry key; simpl.
  - lia.
  - destruct (dentry_is_root K dentry); simpl; [lia|].
    specialize (IH (dentry_parent K dentry)
                  {| ino := get_dentry_ino K (dentry_parent K dentry);
                     mount_id := mount_id key |}).
    lia.
Qed.

Lemma walk_dentry_root K depth dentry key :
  dentry_is_root K dentry = true → walk_dentry K depth dentry key = [].
Proof. intros H. destruct depth; simpl; [done|]. by rewrite H. Qed.

(** When no root is met within the bound the walk uses it up: one fragment
    per step, never more. *)
Lemma walk_dentry_no_root K depth dentry key :
  Forall (λ d, dentry_is_root K d = false) (ancestors K depth dentry) →
  length (walk_dentry K depth dentry key) = depth.
Proof.
  revert dentry key. induction depth as [|depth IH]; intros dentry key H; simpl in *.
  - done.
  - apply Forall_cons in H as [H1 H2]. rewrite H1. simpl. f_equal. by apply IH.
Qed.

(** C8.  For every directory-entry handle the walk of [resolve_dentry] is a
    total function whose result has at most [DENTRY_MAX_DEPTH] steps, on any
    ancestry (cyclic ones included: the parent relation is arbitrary), and
    for a handle that is already a root it is the empty fragment sequence. *)
Theorem resolve_dentry_bounded K dentry key flag :
  (length (resolve_dentry K dentry key flag) ≤ DENTRY_MAX_DEPTH K)%nat
  ∧ (dentry_is_root K dentry = true → resolve_dentry K dentry key flag = []).
Proof.
  unfold resolve_dentry. split.
  - apply walk_dentry_length.
  - apply walk_dentry_root.
Qed.

(** The root dentry of the sample image. *)
Lemma resolve_dentry_bounded_witness :
  (length (resolve_dentry sample_kernel 0x2000 zero_key 0) ≤ 16)%nat
  ∧ resolve_dentry sample_kernel 0x2000 zero_key 0 = [].
Proof.
  destruct (resolve_dentry_bounded sample_kernel 0x2000 zero_key 0) as [H1 H2].
  split; [exact H1 | apply H2; reflexivity].
Defined.

(** On the two-entry cycle of the sample image the walk stops at the bound. *)
Example resolve_dentry_cycle :
  length (resolve_dentry sample_kernel 0x5000 zero_key 0) = 16%nat.
Proof. reflexivity. Qed.

Example resolve_dentry_passwd :
  resolve_dentry sample_kernel 0x2200 {| ino := 977; mount_id := 27 |} 0
  = [ {| frag_key := {| ino := 977; mount_id := 27 |}; frag_name := "passwd" |} ].
Proof. reflexivity. Qed.

(** ** The guard of the mount exit *)

(** C9.  For a mount occurrence reaching a successful exit (return value 0,
    on either exit path), if the mount id and the device read through the
    pending entry's source mount are both zero, the handler consumes the
    entry and returns 0 without publishing anything; and the entry parked by
    the mount entry probe, as long as no hook wrote to it, is in that case
    whenever reads through the null handle give zero. *)
Theorem mount_exit_zero_source_suppressed K cur p st syscall :
  is_exit p = true → family p = EVENT_MOUNT → exit_ret p = 0 →
  syscalls st !! (cur, EVENT_MOUNT) = Some syscall →
  get_mount_mount_id K (src_mnt (mount syscall)) = 0 →
  get_mount_dev K (src_mnt (mount syscall)) = 0 →
  fire K cur p st = (0, set_syscalls (delete (cur, EVENT_MOUNT) (syscalls st)) st)
  ∧ events (fire K cur p st).2 = events st
  ∧ (null_reads_zero K →
     get_mount_mount_id K (src_mnt (mount mount_entry)) = 0
     ∧ get_mount_dev K (src_mnt (mount mount_entry)) = 0).
Proof.
  intros Hp Hf Hr Hsc Hid Hdev.
  rewrite (mount_exit_present K cur p st syscall Hp Hf Hsc), Hr.
  rewrite do_sys_mount_ret_guarded.
  - split; [done|]. split; [done|]. intros (H1 & H2 & _). by split.
  - unfold mount_guard. by rewrite Hid, Hdev.
Qed.

(** A hook fired, but with a source handle that reads as zero. *)
Lemma mount_exit_zero_source_suppressed_witness :
  let st := run sample_kernel
              [(7, kprobe_mount 0 0 0);
               (7, kprobe_propagate_mnt 0x1100 0x3000 0x7777)]
              init_state in
  events (fire sample_kernel 7 (tracepoint_mount_exit 0) st).2 = events st.
Proof.
  intros st.
  refine (proj1 (proj2
    (mount_exit_zero_source_suppressed sample_kernel 7 (tracepoint_mount_exit 0) st
       {| type := EVENT_MOUNT; policy := zero_policy; setattr := zero_setattr;
          mount := {| src_mnt := 0x7777; dest_mnt := 0x1100;
                      dest_mountpoint := 0x3000; root_key := zero_key;
                      fstype := 0 |} |}
       _ _ _ _ _ _))); reflexivity.
Defined.

(** ** The mode-change occurrence *)

Lemma land_S_IALLUGO_range mode : 0 ≤ Z.land mode S_IALLUGO ≤ 0xfff.
Proof.
  change S_IALLUGO with (Z.ones 12). rewrite Z.land_ones by lia.
  pose proof (Z.mod_pos_bound mode (2 ^ 12)). lia.
Qed.

Lemma land_S_IALLUGO_outside mode :
  Z.land (Z.land mode S_IALLUGO) (Z.lnot S_IALLUGO) = 0.
Proof.
  rewrite <- Z.land_assoc, Z.land_lnot_diag, Z.land_0_r. reflexivity.
Qed.

(** An admitted mode-change occurrence from entry to a handled exit, with
    anything intermediate in between: the one event it publishes is built
    from the entry still pending at exit, whose mode is the one stored at
    entry. *)
Lemma chmod_occurrence K t p_entry mid p_exit st :
  is_entry p_entry = true → family p_entry = EVENT_CHMOD →
  is_exit p_exit = true → family p_exit = EVENT_CHMOD →
  filter_admits K EVENT_CHMOD t = true →
  IS_UNHANDLED_ERROR K (exit_ret p_exit) = false →
  forallb (intermediate t EVENT_CHMOD) mid = true →
  ∃ sc,
    syscalls (run K ([(t, p_entry)] ++ mid) st) !! (t, EVENT_CHMOD) = Some sc
    ∧ setattr_mode (setattr sc) = Z.land (entry_mode p_entry) S_IALLUGO
    ∧ emitted_for t EVENT_CHMOD (run K ([(t, p_entry)] ++ mid ++ [(t, p_exit)]) st)
      = emitted_for t EVENT_CHMOD st ++ [chmod_event_of K t sc (exit_ret p_exit)].
Proof.
  intros He Hfe Hx Hfx Ha Hr Hmid.
  rewrite app_assoc, !run_app. simpl run at 2 4.
  rewrite (chmod_entry_admitted K t p_entry st He Hfe Ha). simpl.
  set (st1 := cache_syscall t _ st).
  destruct (run_intermediate K t EVENT_CHMOD mid st1 Hmid) as [Hs Hem].
  assert (Hl : syscalls st1 !! (t, EVENT_CHMOD)
               = Some (chmod_entry K (entry_mode p_entry)))
    by apply (lookup_cache_syscall t (chmod_entry K (entry_mode p_entry)) st).
  rewrite Hl in Hs.
  destruct (syscalls (run K mid st1) !! (t, EVENT_CHMOD)) as [sc|] eqn:E;
    [|done].
  destruct Hs as (_ & _ & Hmode). exists sc. split; [done|]. split; [done|].
  rewrite (chmod_exit_present K t p_exit _ sc Hx Hfx E).
  rewrite do_sys_chmod_ret_handled by done. simpl.
  erewrite emitted_for_snoc by reflexivity.
  rewrite decide_True by done.
  f_equal. transitivity (emitted_for t EVENT_CHMOD (run K mid st1)); [done|].
  by rewrite Hem.
Qed.

(** C10.  For every admitted mode-change occurrence (any of the three entry
    probes, any mode argument, any interleaving of other probes and hooks
    before a handled exit) the mode field of the published event is the
    entry-time mode argument ANDed with [S_IALLUGO]; no bit outside that
    mask is set in it. *)
Theorem chmod_event_mode_masked K t p_entry mid p_exit st :
  is_entry p_entry = true → family p_entry = EVENT_CHMOD →
  is_exit p_exit = true → family p_exit = EVENT_CHMOD →
  filter_admits K EVENT_CHMOD t = true →
  IS_UNHANDLED_ERROR K (exit_ret p_exit) = false →
  forallb (intermediate t EVENT_CHMOD) mid = true →
  ∃ e,
    emitted_for t EVENT_CHMOD (run K ([(t, p_entry)] ++ mid ++ [(t, p_exit)]) st)
      = emitted_for t EVENT_CHMOD st ++ [Chmod_event e]
    ∧ ce_mode e = Z.land (entry_mode p_entry) S_IALLUGO
    ∧ Z.land (ce_mode e) (Z.lnot S_IALLUGO) = 0
    ∧ 0 ≤ ce_mode e ≤ 0xfff.
Proof.
  intros He Hfe Hx Hfx Ha Hr Hmid.
  destruct (chmod_occurrence K t p_entry mid p_exit st He Hfe Hx Hfx Ha Hr Hmid)
    as (sc & _ & Hmode & Hev).
  eexists. split; [exact Hev|]. simpl. rewrite Hmode.
  split; [done|]. split.
  - apply land_S_IALLUGO_outside.
  - apply land_S_IALLUGO_range.
Qed.

(** fchmodat with file-type bits set in the mode argument (0100644), the
    setattr hook and a mount of another thread in between. *)
Lemma chmod_event_mode_masked_witness :
  ∃ e,
    emitted_for 7 EVENT_CHMOD
      (run sample_kernel
         ([(7, kprobe_fchmodat 3 0 0x81a4)]
          ++ [(7, kprobe_setattr 0x2200 {| ino := 977; mount_id := 27 |});
              (8, kprobe_mount 0 0 0)]
          ++ [(7, kretprobe_fchmodat 0)]) init_state)
      = emitted_for 7 EVENT_CHMOD init_state ++ [Chmod_event e]
    ∧ ce_mode e = Z.land (entry_mode (kprobe_fchmodat 3 0 0x81a4)) S_IALLUGO
    ∧ Z.land (ce_mode e) (Z.lnot S_IALLUGO) = 0
    ∧ 0 ≤ ce_mode e ≤ 0xfff.
Proof.
  apply (chmod_event_mode_masked sample_kernel 7 (kprobe_fchmodat 3 0 0x81a4)
           [(7, kprobe_setattr 0x2200 {| ino := 977; mount_id := 27 |});
            (8, kprobe_mount 0 0 0)]
           (kretprobe_fchmodat 0) init_state); reflexivity.
Defined.

Lemma setattr_hook_present K t dentry key st sc :
  syscalls st !! (t, EVENT_CHMOD) = Some sc →
  ∃ sc', syscalls (fire K t (kprobe_setattr dentry key) st).2 !! (t, EVENT_CHMOD) = Some sc'
         ∧ path_key (setattr_file (setattr sc')) = key
         ∧ setattr_dentry (setattr sc') = dentry.
Proof.
  intros H. unfold fire, setattr_hook, peek_syscall. rewrite H. simpl.
  rewrite lookup_insert_eq. eauto.
Qed.

(** C7.  Scenario B: the filter admits mode-change calls, a mode-change
    entry probe fires with mode bits 0644, the setattr hook records the
    target's (mount id, inode) key, and the exit carries return value 0.
    Exactly one event is published for the occurrence; its mode field is
    0644, its file identity carries the target's key and its return value
    is 0. *)
Theorem scenario_chmod_0644 K t p_entry mid1 dentry key mid2 p_exit st :
  is_entry p_entry = true → family p_entry = EVENT_CHMOD →
  entry_mode p_entry = 0x1a4 →
  is_exit p_exit = true → family p_exit = EVENT_CHMOD →
  exit_ret p_exit = 0 →
  filter_admits K EVENT_CHMOD t = true →
  IS_UNHANDLED_ERROR K 0 = false →
  forallb (intermediate t EVENT_CHMOD) mid1 = true →
  forallb (foreign t EVENT_CHMOD) mid2 = true →
  ∃ e,
    emitted_for t EVENT_CHMOD
      (run K ([(t, p_entry)]
              ++ (mid1 ++ [(t, kprobe_setattr dentry key)] ++ mid2)
              ++ [(t, p_exit)]) st)
      = emitted_for t EVENT_CHMOD st ++ [Chmod_event e]
    ∧ ce_mode e = 0x1a4
    ∧ path_key (ce_file e) = key
    ∧ retval (ce_syscall e) = 0
    ∧ kevent_type (ce_event e) = Some EVENT_CHMOD
    ∧ tid (ce_process e) = t.
Proof.
  intros He Hfe Hm Hx Hfx Hr Ha Hu Hmid1 Hmid2.
  assert (Hmid : forallb (intermediate t EVENT_CHMOD)
                   (mid1 ++ [(t, kprobe_setattr dentry key)] ++ mid2) = true).
  { rewrite !forallb_app, Hmid1. simpl.
    assert (intermediate t EVENT_CHMOD (t, kprobe_setattr dentry key) = true)
      as -> by (unfold intermediate; simpl; apply orb_true_r).
    simpl. apply forallb_forall. intros tp Hin.
    eapply forallb_forall in Hmid2; [|exact Hin].
    unfold intermediate, foreign in *. by rewrite Hmid2. }
  rewrite <- Hr in Hu.
  destruct (chmod_occurrence K t p_entry _ p_exit st He Hfe Hx Hfx Ha Hu Hmid)
    as (sc & Hsc & Hmode & Hev).
  eexists. split; [exact Hev|]. simpl.
  split; [by rewrite Hmode, Hm|]. split; [|by rewrite Hr].
  (* the entry pending at exit is the one the hook wrote *)
  revert Hsc. rewrite !app_assoc, !run_app.
  destruct (run_foreign K t EVENT_CHMOD mid2
              (run K [(t, kprobe_setattr dentry key)]
                 (run K mid1 (run K [(t, p_entry)] st))) Hmid2) as [-> _].
  rewrite run_cons, run_nil. simpl fst. simpl snd.
  destruct (run_intermediate K t EVENT_CHMOD mid1 (run K [(t, p_entry)] st) Hmid1)
    as [Hs _].
  rewrite run_cons, run_nil in Hs. simpl in Hs.
  rewrite (chmod_entry_admitted K t p_entry st He Hfe Ha) in Hs. simpl in Hs.
  pose proof (lookup_cache_syscall t (chmod_entry K (entry_mode p_entry)) st) as Hl.
  simpl in Hl. rewrite Hl in Hs.
  destruct (syscalls (run K mid1 _) !! (t, EVENT_CHMOD)) as [sc1|] eqn:E1; [|done].
  destruct (setattr_hook_present K t dentry key _ sc1 E1) as (sc' & Hsc' & Hk & _).
  change (fire K t (kprobe_setattr dentry key))
    with (setattr_hook K t dentry key) in Hsc'.
  rewrite (chmod_entry_admitted K t p_entry st He Hfe Ha). simpl snd.
  intros Hsc. congruence.
Qed.

(** chmod("/etc/passwd", 0644) on thread 7 of the sample image, whose dentry
    [0x2200] has inode 977 on mount 27. *)
Lemma scenario_chmod_0644_witness :
  ∃ e,
    emitted_for 7 EVENT_CHMOD
      (run sample_kernel
         ([(7, kprobe_chmod 0x6000 0x1a4)]
          ++ ([] ++ [(7, kprobe_setattr 0x2200 {| ino := 977; mount_id := 27 |})] ++ [])
          ++ [(7, tracepoint_chmod_exit 0)]) init_state)
      = emitted_for 7 EVENT_CHMOD init_state ++ [Chmod_event e]
    ∧ ce_mode e = 0x1a4
    ∧ path_key (ce_file e) = {| ino := 977; mount_id := 27 |}
    ∧ retval (ce_syscall e) = 0
    ∧ kevent_type (ce_event e) = Some EVENT_CHMOD
    ∧ tid (ce_process e) = 7.
Proof.
  apply (scenario_chmod_0644 sample_kernel 7 (kprobe_chmod 0x6000 0x1a4) []
           0x2200 {| ino := 977; mount_id := 27 |} [] (tracepoint_chmod_exit 0)
           init_state); reflexivity.
Defined.

(** The whole channel after that run: one record. *)
Example chmod_0644_channel :
  events (run sample_kernel
            [(7, kprobe_chmod 0x6000 0x1a4);
             (7, kprobe_setattr 0x2200 {| ino := 977; mount_id := 27 |});
             (7, tracepoint_chmod_exit 0)] init_state)
  = [Chmod_event
       {| ce_event := {| kevent_type := Some EVENT_CHMOD |};
          ce_process := {| pid := 7; tid := 7 |};
          ce_container := {| container_id := "" |};
          ce_syscall := {| retval := 0 |};
          ce_file := {| path_key := {| ino := 977; mount_id := 27 |}; file_flags := 0 |};
          ce_mode := 0x1a4;
          ce_padding := 0 |}].
Proof. reflexivity. Qed.

(** ** Events per occurrence *)

(** An occurrence whose exit is never observed publishes nothing, whatever
    fires in between. *)
Lemma abandoned_occurrence K t p_entry mid st :
  is_entry p_entry = true →
  forallb (intermediate t (family p_entry)) mid = true →
  emitted_for t (family p_entry) (run K ([(t, p_entry)] ++ mid) st)
  = emitted_for t (family p_entry) st.
Proof.
  intros He Hmid. rewrite run_app.
  destruct (run_intermediate K t _ mid (run K [(t, p_entry)] st) Hmid) as [_ ->].
  rewrite run_cons, run_nil. simpl.
  apply emitted_for_same, fire_events_quiet.
  by destruct p_entry.
Qed.

(** A mode-change occurrence the filter discards: nothing is parked, and in
    a reachable state nothing was pending for the thread either, so the exit
    finds nothing. *)
Lemma chmod_discarded_occurrence K t p_entry mid p_exit st :
  reachable K st →
  is_entry p_entry = true → family p_entry = EVENT_CHMOD →
  is_exit p_exit = true → family p_exit = EVENT_CHMOD →
  filter_admits K EVENT_CHMOD t = false →
  forallb (intermediate t EVENT_CHMOD) mid = true →
  run K ([(t, p_entry)] ++ mid ++ [(t, p_exit)]) st = run K mid st
  ∧ emitted_for t EVENT_CHMOD (run K ([(t, p_entry)] ++ mid ++ [(t, p_exit)]) st)
    = emitted_for t EVENT_CHMOD st.
Proof.
  intros Hreach He Hfe Hx Hfx Ha Hmid.
  assert (Hnone : syscalls st !! (t, EVENT_CHMOD) = None).
  { destruct (syscalls st !! (t, EVENT_CHMOD)) as [sc|] eqn:E; [|done].
    destruct (cache_inv_reachable K st Hreach t EVENT_CHMOD sc E) as [_ H].
    rewrite H in Ha; done. }
  rewrite app_assoc, !run_app. rewrite (run_cons K (t, p_entry) []), run_nil.
  simpl fst. simpl snd.
  rewrite (chmod_entry_discarded K t p_entry st He Hfe Ha). simpl snd.
  destruct (run_intermediate K t EVENT_CHMOD mid st Hmid) as [Hs Hem].
  rewrite Hnone in Hs.
  destruct (syscalls (run K mid st) !! (t, EVENT_CHMOD)) eqn:E; [done|].
  rewrite run_cons, run_nil. simpl fst. simpl snd.
  rewrite <- Hfx in E. rewrite (exit_absent K t p_exit _ Hx E). simpl.
  by rewrite Hem.
Qed.

(** A mount occurrence that exits with 0: the guard of [do_sys_mount_ret]
    decides, on the entry pending at exit, between one event and none. *)
Lemma mount_occurrence K t p_entry mid p_exit st :
  is_entry p_entry = true → family p_entry = EVENT_MOUNT →
  is_exit p_exit = true → family p_exit = EVENT_MOUNT →
  exit_ret p_exit = 0 →
  forallb (intermediate t EVENT_MOUNT) mid = true →
  ∃ sc,
    syscalls (run K ([(t, p_entry)] ++ mid) st) !! (t, EVENT_MOUNT) = Some sc
    ∧ emitted_for t EVENT_MOUNT (run K ([(t, p_entry)] ++ mid ++ [(t, p_exit)]) st)
      = emitted_for t EVENT_MOUNT st
          ++ (if mount_guard K sc then [] else [mount_event_of K t sc 0]).
Proof.
  intros He Hfe Hx Hfx Hr Hmid.
  rewrite app_assoc, !run_app. rewrite (run_cons K (t, p_entry) []), run_nil.
  simpl fst. simpl snd.
  rewrite (mount_entry_always K t p_entry st He Hfe). simpl snd.
  set (st1 := cache_syscall t mount_entry st).
  destruct (run_intermediate K t EVENT_MOUNT mid st1 Hmid) as [Hs Hem].
  assert (Hl : syscalls st1 !! (t, EVENT_MOUNT) = Some mount_entry)
    by apply (lookup_cache_syscall t mount_entry st).
  rewrite Hl in Hs.
  destruct (syscalls (run K mid st1) !! (t, EVENT_MOUNT)) as [sc|] eqn:E; [|done].
  exists sc. split; [done|].
  rewrite run_cons, run_nil. simpl fst. simpl snd.
  rewrite (mount_exit_present K t p_exit _ sc Hx Hfx E), Hr.
  change (emitted_for t EVENT_MOUNT st) with (emitted_for t EVENT_MOUNT st1).
  rewrite <- Hem.
  destruct (mount_guard K sc) eqn:G.
  - rewrite do_sys_mount_ret_guarded by done. simpl. by rewrite app_nil_r.
  - destruct (do_sys_mount_ret_published K t sc
                (set_syscalls (delete (t, EVENT_MOUNT) (syscalls (run K mid st1)))
                   (run K mid st1)) G) as [frags ->].
    simpl. erewrite emitted_for_snoc by reflexivity.
    by rewrite decide_True.
Qed.

(** A mount on the sample image whose hooks never fire, exiting with 0
    through the kretprobe: the occurrence is handled, nothing discards it,
    and it publishes no event. *)
Lemma mount_handled_exit_without_event :
  let trace := [(7, kprobe_mount 0 0 0); (7, kretprobe_mount 0)] in
  filter_admits sample_kernel EVENT_MOUNT 7 = true
  ∧ unhandled sample_kernel (kretprobe_mount 0) = false
  ∧ emitted_for 7 EVENT_MOUNT (run sample_kernel trace init_state) = []
  ∧ length (emitted_for 7 EVENT_MOUNT (run sample_kernel trace init_state)) ≠ 1%nat.
Proof. repeat split; try reflexivity. vm_compute. discriminate. Qed.

(** C1, amended.  In every reachable state, for an occurrence on thread [t]
    with anything intermediate between its entry and its exit:
    - if no exit is observed, no event is published for it;
    - a mode-change occurrence the filter admits and whose exit is handled
      publishes exactly one event;
    - a mode-change occurrence discarded at entry publishes none;
    - a mount occurrence whose exit is handled publishes exactly one event
      when the source mount of the pending entry has a non-zero mount id or
      device, and none when both read zero. *)
Theorem occurrence_event_count K t p_entry mid p_exit st :
  reachable K st →
  is_entry p_entry = true → is_exit p_exit = true →
  family p_exit = family p_entry →
  forallb (intermediate t (family p_entry)) mid = true →
  let ty := family p_entry in
  let pending := run K ([(t, p_entry)] ++ mid) st in
  let final := run K ([(t, p_entry)] ++ mid ++ [(t, p_exit)]) st in
  emitted_for t ty pending = emitted_for t ty st
  ∧ (ty = EVENT_CHMOD → filter_admits K EVENT_CHMOD t = true →
     unhandled K p_exit = false →
     ∃ ev, emitted_for t ty final = emitted_for t ty st ++ [ev])
  ∧ (ty = EVENT_CHMOD → filter_admits K EVENT_CHMOD t = false →
     emitted_for t ty final = emitted_for t ty st)
  ∧ (ty = EVENT_MOUNT → unhandled K p_exit = false →
     ∃ sc, syscalls pending !! (t, EVENT_MOUNT) = Some sc
           ∧ emitted_for t ty final
             = emitted_for t ty st
                 ++ (if mount_guard K sc then [] else [mount_event_of K t sc 0])).
Proof.
  intros Hreach He Hx Hf Hmid ty pending final. subst ty pending final.
  split; [by apply abandoned_occurrence|].
  split; [|split].
  - intros Hty Ha Hu. rewrite Hty in *.
    unfold unhandled in Hu. rewrite Hf in Hu.
    destruct (chmod_occurrence K t p_entry mid p_exit st) as (sc & _ & _ & Hev);
      eauto.
  - intros Hty Ha. rewrite Hty in *.
    by apply chmod_discarded_occurrence.
  - intros Hty Hu. rewrite Hty in *.
    unfold unhandled in Hu. rewrite Hf in Hu.
    apply negb_false_iff, Z.eqb_eq in Hu.
    by apply mount_occurrence.
Qed.

(** A mount on the sample image whose hook fires with source mount [0x1000]
    (id 27, device 2049): one event. *)
Lemma occurrence_event_count_witness :
  ∃ sc,
    syscalls (run sample_kernel
                ([(7, kprobe_mount 0 0 0)]
                 ++ [(7, kprobe_attach_recursive_mnt 0x1000 0x1100 0x3000)])
                init_state) !! (7, EVENT_MOUNT) = Some sc
    ∧ emitted_for 7 EVENT_MOUNT
        (run sample_kernel
           ([(7, kprobe_mount 0 0 0)]
            ++ [(7, kprobe_attach_recursive_mnt 0x1000 0x1100 0x3000)]
            ++ [(7, kretprobe_mount 0)]) init_state)
      = emitted_for 7 EVENT_MOUNT init_state
          ++ (if mount_guard sample_kernel sc then []
              else [mount_event_of sample_kernel 7 sc 0]).
Proof.
  apply (occurrence_event_count sample_kernel 7 (kprobe_mount 0 0 0)
           [(7, kprobe_attach_recursive_mnt 0x1000 0x1100 0x3000)]
           (kretprobe_mount 0) init_state);
    first [apply reachable_init | reflexivity].
Defined.

(** What that run puts on the channel. *)
Example mount_with_hook_events :
  events (run sample_kernel
            [(7, kprobe_mount 0 0 0);
             (7, kprobe_attach_recursive_mnt 0x1000 0x1100 0x3000);
             (7, kretprobe_mount 0)] init_state)
  = [Mount_event
       {| me_event := {| kevent_type := Some EVENT_MOUNT |};
          me_process := {| pid := 7; tid := 7 |};
          me_container := {| container_id := "" |};
          me_syscall := {| retval := 0 |};
          me_mount_id := 27; me_group_id := 5; me_device := 2049;
          me_parent_mount_id := 22; me_parent_ino := 131;
          me_root_ino := 2; me_root_mount_id := 27;
          me_padding := 0; me_fstype := "ext4" |}].
Proof. reflexivity. Qed.

(** ** The filter at entry *)

(** Under discarders that reject every call of every type, the mount entry
    probe still parks an entry in an empty slot. *)
Lemma mount_entry_ignores_filter :
  filter_admits discard_kernel EVENT_MOUNT 7 = false
  ∧ syscalls init_state !! (7, EVENT_MOUNT) = None
  ∧ syscalls (fire discard_kernel 7 (kprobe_mount 0 0 0) init_state).2
      !! (7, EVENT_MOUNT) = Some mount_entry.
Proof. repeat split; reflexivity. Qed.

(** C2, amended.  The mode-change entry probes consult the filter before
    anything is stored: the state after the probe is the state with the new
    entry parked when the filter admits the call and the unchanged state
    when it does not, so an empty slot becomes occupied exactly when the
    call is admitted.  The mount entry probe consults no filter and parks
    its entry unconditionally. *)
Theorem entry_filter_gate K cur p st :
  is_entry p = true →
  match family p with
  | EVENT_CHMOD =>
      (fire K cur p st).2
      = (if filter_admits K EVENT_CHMOD cur
         then cache_syscall cur (chmod_entry K (entry_mode p)) st
         else st)
      ∧ (syscalls st !! (cur, EVENT_CHMOD) = None →
         (is_Some (syscalls (fire K cur p st).2 !! (cur, EVENT_CHMOD))
          ↔ filter_admits K EVENT_CHMOD cur = true))
  | EVENT_MOUNT =>
      (fire K cur p st).2 = cache_syscall cur mount_entry st
      ∧ syscalls (fire K cur p st).2 !! (cur, EVENT_MOUNT) = Some mount_entry
  end.
Proof.
  intros Hp. destruct (family p) eqn:Hf.
  - destruct (filter_admits K EVENT_CHMOD cur) eqn:Ha.
    + rewrite (chmod_entry_admitted K cur p st Hp Hf Ha). simpl.
      split; [done|]. intros _. rewrite lookup_insert_eq. split; [done|eauto].
    + rewrite (chmod_entry_discarded K cur p st Hp Hf Ha). simpl.
      split; [done|]. intros ->. split; [by intros [? ?]|done].
  - rewrite (mount_entry_always K cur p st Hp Hf). simpl.
    split; [done|]. apply lookup_insert_eq.
Qed.

(** fchmod on the sample image, where the filter admits. *)
Lemma entry_filter_gate_witness :
  (fire sample_kernel 7 (kprobe_fchmod 3 0x1ed) init_state).2
  = (if filter_admits sample_kernel EVENT_CHMOD 7
     then cache_syscall 7 (chmod_entry sample_kernel (entry_mode (kprobe_fchmod 3 0x1ed)))
            init_state
     else init_state)
  ∧ (syscalls init_state !! (7, EVENT_CHMOD) = None →
     (is_Some (syscalls (fire sample_kernel 7 (kprobe_fchmod 3 0x1ed) init_state).2
               !! (7, EVENT_CHMOD))
      ↔ filter_admits sample_kernel EVENT_CHMOD 7 = true)).
Proof.
  apply (entry_filter_gate sample_kernel 7 (kprobe_fchmod 3 0x1ed) init_state).
  reflexivity.
Defined.

(** The same call under the discarding policy parks nothing. *)
Example chmod_entry_discard_kernel :
  (fire discard_kernel 7 (kprobe_fchmod 3 0x1ed) init_state).2 = init_state.
Proof. reflexivity. Qed.

(** ** One slot per thread and type *)






(** ** Mount without hooks *)

(** Thread 9 of the sample image mounts while thread 8 changes a mode;
    neither mount hook fires and the mount exits with 0 through the
    tracepoint.  The only record on the channel is thread 8's: the mount
    publishes none. *)
Lemma mount_without_hooks_emits_nothing :
  let trace := [(9, kprobe_mount 0 0 0); (8, kprobe_chmod 0 0x1a4);
                (8, kretprobe_chmod 0); (9, tracepoint_mount_exit 0)] in
  emitted_for 9 EVENT_MOUNT (run sample_kernel trace init_state) = []
  ∧ ¬ (∃ e, Mount_event e ∈ events (run sample_kernel trace init_state)).
Proof.
  split; [reflexivity|].
  intros [e He]. vm_compute in He.
  apply list_elem_of_singleton in He. discriminate.
Qed.

(** C6, amended.  For a mount occurrence that exits with return value 0
    while neither [attach_recursive_mnt] nor [propagate_mnt] fired for its
    thread, on a kernel where reads through the null handle give zero: the
    pending entry is still the one parked at entry, its source mount reads
    as mount id 0 and device 0, and the exit handler consumes the entry and
    returns 0 without publishing an event. *)
Theorem mount_without_hooks_suppressed K t p_entry mid p_exit st :
  null_reads_zero K →
  is_entry p_entry = true → family p_entry = EVENT_MOUNT →
  is_exit p_exit = true → family p_exit = EVENT_MOUNT →
  exit_ret p_exit = 0 →
  forallb (foreign t EVENT_MOUNT) mid = true →
  let pending := run K ([(t, p_entry)] ++ mid) st in
  let final := run K ([(t, p_entry)] ++ mid ++ [(t, p_exit)]) st in
  syscalls pending !! (t, EVENT_MOUNT) = Some mount_entry
  ∧ fire K t p_exit pending
    = (0, set_syscalls (delete (t, EVENT_MOUNT) (syscalls pending)) pending)
  ∧ events final = events pending
  ∧ emitted_for t EVENT_MOUNT final = emitted_for t EVENT_MOUNT st
  ∧ syscalls final !! (t, EVENT_MOUNT) = None.
Proof.
  intros (Hid & Hdev & _) He Hfe Hx Hfx Hr Hmid pending final.
  assert (Hfinal : final = (fire K t p_exit pending).2).
  { subst final pending. by rewrite app_assoc, run_app. }
  assert (Hpend : syscalls pending !! (t, EVENT_MOUNT) = Some mount_entry).
  { subst pending. rewrite run_app.
    destruct (run_foreign K t EVENT_MOUNT mid (run K [(t, p_entry)] st) Hmid)
      as [-> _].
    rewrite run_cons, run_nil. simpl fst. simpl snd.
    rewrite (mount_entry_always K t p_entry st He Hfe).
    apply (lookup_cache_syscall t mount_entry st). }
  assert (Hfire : fire K t p_exit pending
                  = (0, set_syscalls (delete (t, EVENT_MOUNT) (syscalls pending)) pending)).
  { rewrite (mount_exit_present K t p_exit pending mount_entry Hx Hfx Hpend), Hr.
    apply do_sys_mount_ret_guarded. unfold mount_guard. simpl.
    by rewrite Hid, Hdev. }
  split; [done|]. split; [done|].
  rewrite Hfinal, Hfire. simpl. split; [done|]. split.
  - transitivity (emitted_for t EVENT_MOUNT pending); [done|].
    subst pending. rewrite <- Hfe. apply abandoned_occurrence; [done|].
    rewrite Hfe. apply forallb_forall. intros tp Hin.
    eapply forallb_forall in Hmid; [|exact Hin].
    unfold intermediate, foreign in *. by rewrite Hmid.
  - apply lookup_delete_eq.
Qed.

(** The sample image reads zero through the null handle. *)
Lemma sample_kernel_null_reads_zero : null_reads_zero sample_kernel.
Proof. repeat split. Qed.

Lemma mount_without_hooks_suppressed_witness :
  events (run sample_kernel
            ([(9, kprobe_mount 0 0 0)]
             ++ [(8, kprobe_chmod 0 0x1a4); (8, kretprobe_chmod 0)]
             ++ [(9, kretprobe_mount 0)]) init_state)
  = events (run sample_kernel
              ([(9, kprobe_mount 0 0 0)]
               ++ [(8, kprobe_chmod 0 0x1a4); (8, kretprobe_chmod 0)]) init_state).
Proof.
  apply (mount_without_hooks_suppressed sample_kernel 9 (kprobe_mount 0 0 0)
           [(8, kprobe_chmod 0 0x1a4); (8, kretprobe_chmod 0)]
           (kretprobe_mount 0) init_state);
    first [apply sample_kernel_null_reads_zero | reflexivity].
Defined.

(** * Further properties of the handlers *)

(** ** What an exit probe leaves behind *)

(** X1.  An exit probe always consumes the slot of its thread and family,
    also when the return value is not reported or the mount guard suppresses
    the record: the cache afterwards is the cache before with that one key
    removed.  A second exit probe for the same exit (tracepoint and kretprobe
    both attached) therefore finds nothing and changes nothing. *)
Theorem exit_always_consumes K cur p p' st :
  is_exit p = true → is_exit p' = true → family p' = family p →
  syscalls (fire K cur p st).2 = delete (cur, family p) (syscalls st)
  ∧ fire K cur p' (fire K cur p st).2 = (0, (fire K cur p st).2).
Proof.
  intros Hp Hp' Hf. split.
  - destruct p; try discriminate Hp; handlers; simpl;
      destruct (syscalls st !! _); simpl; repeat case_match; done.
  - apply exit_absent; [done|]. rewrite Hf. by apply exit_clears.
Qed.

(** A chmod that fails with -EINTR, seen by the kretprobe and then by the
    tracepoint. *)
Lemma exit_always_consumes_witness :
  let st := run sample_kernel [(7, kprobe_chmod 0 0x1a4)] init_state in
  syscalls (fire sample_kernel 7 (kretprobe_chmod (-4)) st).2
  = delete (7, EVENT_CHMOD) (syscalls st)
  ∧ fire sample_kernel 7 (tracepoint_chmod_exit (-4))
      (fire sample_kernel 7 (kretprobe_chmod (-4)) st).2
    = (0, (fire sample_kernel 7 (kretprobe_chmod (-4)) st).2).
Proof.
  intros st.
  apply (exit_always_consumes sample_kernel 7 (kretprobe_chmod (-4))
           (tracepoint_chmod_exit (-4)) st); reflexivity.
Defined.

(** ** The mount hooks *)

Lemma dom_insert_present (m : gmap (Z * event_type) syscall_cache_t) k v v' :
  m !! k = Some v → dom (<[k:=v']> m) = dom m.
Proof.
  intros H. rewrite dom_insert_L.
  apply subseteq_union_1_L, singleton_subseteq_l, elem_of_dom. eauto.
Qed.

(** X2.  The two mount hooks never publish, never add a key to the cache
    and never remove one; when no mount is pending for the thread they
    return 0 and leave the whole state as it is. *)
Theorem mount_hooks_keep_slots K cur h st :
  is_mount_hook h = true →
  events (fire K cur h st).2 = events st
  ∧ dom (syscalls (fire K cur h st).2) = dom (syscalls st)
  ∧ (peek_syscall cur EVENT_MOUNT st = None → fire K cur h st = (0, st)).
Proof.
  intros Hh.
  destruct h; try discriminate Hh; handlers;
    destruct (syscalls st !! (cur, EVENT_MOUNT)) as [sc|] eqn:E; simpl;
    (split; [done|]); (split; [|done]);
    first [done | by eapply dom_insert_present].
Qed.

(** [propagate_mnt] firing for a thread that is inside a chmod, not a mount. *)
Lemma mount_hooks_keep_slots_witness :
  let st := run sample_kernel [(7, kprobe_chmod 0 0x1a4)] init_state in
  fire sample_kernel 7 (kprobe_propagate_mnt 0x1100 0x3000 0x1000) st = (0, st).
Proof.
  intros st.
  apply (mount_hooks_keep_slots sample_kernel 7
           (kprobe_propagate_mnt 0x1100 0x3000 0x1000) st); reflexivity.
Defined.

(** The entry a mount hook leaves in an occupied slot. *)
Lemma mount_hook_present K t h st sc :
  is_mount_hook h = true →
  syscalls st !! (t, EVENT_MOUNT) = Some sc →
  syscalls (fire K t h st).2 !! (t, EVENT_MOUNT)
  = Some (set_mount
            {| src_mnt := hook_src h; dest_mnt := hook_dest h;
               dest_mountpoint := hook_mountpoint h;
               root_key :=
                 {| ino := get_dentry_ino K (mount_root_dentry K (hook_src h));
                    mount_id := get_mount_mount_id K (hook_src h) |};
               fstype :=
                 fs_type_name K
                   (get_super_block_fs K
                      (get_dentry_sb K (mount_root_dentry K (hook_src h)))) |}
            sc).
Proof.
  intros Hh H.
  destruct h; try discriminate Hh;
    unfold fire, kprobe__attach_recursive_mnt, kprobe__propagate_mnt,
      peek_syscall; rewrite H; simpl; by rewrite lookup_insert_eq.
Qed.

(** X3.  A mount occurrence from entry to an exit with return value 0, with
    a hook (either one) as the last probe of its thread and family before
    the exit: when the hook's source mount has a non-zero mount id or
    device, exactly one record is published, and every field of it is read
    through the three handles that hook received - mount id, peer group and
    device of the source mount, the parent key of the destination mount and
    mountpoint, the root key of the source mount's root dentry, and the
    first [FSTYPE_LEN - 1] characters of its filesystem type name.  Earlier
    hooks of the same occurrence leave no trace in it. *)
Theorem mount_event_contents K t p_entry mid1 h mid2 p_exit st :
  is_entry p_entry = true → family p_entry = EVENT_MOUNT →
  is_mount_hook h = true →
  is_exit p_exit = true → family p_exit = EVENT_MOUNT →
  exit_ret p_exit = 0 →
  forallb (intermediate t EVENT_MOUNT) mid1 = true →
  forallb (foreign t EVENT_MOUNT) mid2 = true →
  get_mount_mount_id K (hook_src h) ≠ 0 ∨ get_mount_dev K (hook_src h) ≠ 0 →
  emitted_for t EVENT_MOUNT
    (run K ([(t, p_entry)] ++ (mid1 ++ [(t, h)] ++ mid2) ++ [(t, p_exit)]) st)
  = emitted_for t EVENT_MOUNT st
    ++ [Mount_event
          {| me_event := {| kevent_type := Some EVENT_MOUNT |};
             me_process := {| pid := current_tgid K t; tid := t |};
             me_container :=
               fill_container_context (get_pid_cache K (current_tgid K t))
                 {| container_id := "" |};
             me_syscall := {| retval := 0 |};
             me_mount_id := get_mount_mount_id K (hook_src h);
             me_group_id := get_mount_peer_group_id K (hook_src h);
             me_device := get_mount_dev K (hook_src h);
             me_parent_mount_id := get_mount_mount_id K (hook_dest h);
             me_parent_ino :=
               get_dentry_ino K (get_mountpoint_dentry K (hook_mountpoint h));
             me_root_ino := get_dentry_ino K (mount_root_dentry K (hook_src h));
             me_root_mount_id := get_mount_mount_id K (hook_src h);
             me_padding := 0;
             me_fstype :=
               bpf_probe_read_str K FSTYPE_LEN
                 (fs_type_name K
                    (get_super_block_fs K
                       (get_dentry_sb K (mount_root_dentry K (hook_src h))))) |}].
Proof.
  intros He Hfe Hh Hx Hfx Hr Hmid1 Hmid2 Hsrc.
  assert (Hhi : intermediate t EVENT_MOUNT (t, h) = true).
  { unfold intermediate. simpl. destruct h; try discriminate Hh; simpl;
      apply orb_true_r. }
  assert (Hmid : forallb (intermediate t EVENT_MOUNT)
                   (mid1 ++ [(t, h)] ++ mid2) = true).
  { rewrite !forallb_app, Hmid1. simpl. rewrite Hhi. simpl.
    apply forallb_forall. intros tp Hin.
    eapply forallb_forall in Hmid2; [|exact Hin].
    unfold intermediate, foreign in *. by rewrite Hmid2. }
  destruct (mount_occurrence K t p_entry _ p_exit st He Hfe Hx Hfx Hr Hmid)
    as (sc & Hsc & ->).
  f_equal.
  (* the entry pending at exit is the one the hook wrote *)
  revert Hsc. rewrite !app_assoc, !run_app.
  destruct (run_foreign K t EVENT_MOUNT mid2
              (run K [(t, h)] (run K mid1 (run K [(t, p_entry)] st))) Hmid2)
    as [-> _].
  rewrite (run_cons K (t, h) []), run_nil. simpl fst. simpl snd.
  destruct (run_intermediate K t EVENT_MOUNT mid1 (run K [(t, p_entry)] st) Hmid1)
    as [Hs _].
  rewrite run_cons, run_nil in Hs. simpl in Hs.
  rewrite (mount_entry_always K t p_entry st He Hfe) in Hs. simpl in Hs.
  rewrite lookup_insert_eq in Hs.
  rewrite (mount_entry_always K t p_entry st He Hfe). simpl snd.
  destruct (syscalls (run K mid1 _) !! (t, EVENT_MOUNT)) as [sc1|] eqn:E1; [|done].
  rewrite (mount_hook_present K t h _ sc1 Hh E1). intros [= <-].
  unfold mount_guard, mount_event_of. simpl.
  destruct Hsrc as [Hne|Hne]; apply Z.eqb_neq in Hne; rewrite Hne;
    rewrite ?andb_false_r; reflexivity.
Qed.

(** Thread 7 of the sample image: [attach_recursive_mnt] fires with a source
    that reads as zero, then [propagate_mnt] with mount [0x1000] as source. *)
Lemma mount_event_contents_witness :
  emitted_for 7 EVENT_MOUNT
    (run sample_kernel
       ([(7, kprobe_mount 0 0 0)]
        ++ ([(7, kprobe_attach_recursive_mnt 0x7777 0 0)]
            ++ [(7, kprobe_propagate_mnt 0x1100 0x3000 0x1000)]
            ++ [(8, kprobe_chmod 0 0x1a4)])
        ++ [(7, tracepoint_mount_exit 0)]) init_state)
  = emitted_for 7 EVENT_MOUNT init_state
    ++ [Mount_event
          {| me_event := {| kevent_type := Some EVENT_MOUNT |};
             me_process := {| pid := 7; tid := 7 |};
             me_container := {| container_id := "" |};
             me_syscall := {| retval := 0 |};
             me_mount_id := 27; me_group_id := 5; me_device := 2049;
             me_parent_mount_id := 22; me_parent_ino := 131;
             me_root_ino := 2; me_root_mount_id := 27;
             me_padding := 0; me_fstype := "ext4" |}].
Proof.
  apply (mount_event_contents sample_kernel 7 (kprobe_mount 0 0 0)
           [(7, kprobe_attach_recursive_mnt 0x7777 0 0)]
           (kprobe_propagate_mnt 0x1100 0x3000 0x1000)
           [(8, kprobe_chmod 0 0x1a4)]
           (tracepoint_mount_exit 0) init_state);
    first [reflexivity | left; vm_compute; discriminate].
Defined.

(** ** Counting records against entries *)

Lemma occupancy_le_1 t ty st : (occupancy t ty st ≤ 1)%nat.
Proof. unfold occupancy. destruct (syscalls st !! (t, ty)); lia. Qed.

Lemma entries_in_cons t ty tp trace :
  entries_in t ty (tp :: trace) = (entries_in t ty [tp] + entries_in t ty trace)%nat.
Proof.
  unfold entries_in. rewrite (filter_app _ [tp] trace). apply length_app.
Qed.

Lemma fire_count K cur p t ty st :
  (length (emitted_for t ty (fire K cur p st).2) + occupancy t ty (fire K cur p st).2
   ≤ length (emitted_for t ty st) + occupancy t ty st + entries_in t ty [(cur, p)])%nat.
Proof.
  destruct (decide ((t, ty) = (cur, family p))) as [[= -> ->]|Hne].
  2: { rewrite fire_emitted_frame by done. unfold occupancy.
       rewrite fire_syscalls_frame by done. lia. }
  destruct (is_exit p) eqn:Hx.
  - (* exit: the slot is emptied, and a record needs an occupied slot *)
    unfold occupancy at 1. rewrite exit_clears by done.
    destruct (syscalls st !! (cur, family p)) as [sc|] eqn:E.
    + unfold occupancy. rewrite E.
      destruct (fire_events K cur p st) as [H|(ev & H & _)].
      * rewrite (emitted_for_same _ _ _ _ H). lia.
      * rewrite (emitted_for_snoc _ _ _ _ _ H), length_app.
        case_decide; simpl; lia.
    + rewrite (exit_absent K cur p st Hx E). simpl. lia.
  - rewrite (emitted_for_same _ _ _ _ (fire_events_quiet K cur p st Hx)).
    destruct (is_entry p) eqn:He.
    + pose proof (occupancy_le_1 cur (family p) (fire K cur p st).2).
      unfold entries_in. rewrite filter_cons_True by done. simpl. lia.
    + pose proof (fire_hook_slot K cur p st He Hx) as Hs. unfold occupancy.
      destruct (syscalls st !! _), (syscalls (fire K cur p st).2 !! _);
        simpl in Hs; try done; lia.
Qed.

(** X4.  Records never outnumber entries: over any run from any state, the
    records published for a thread and family, plus one if its slot ends up
    occupied, are at most the records and occupancy at the start plus the
    entry probes of that thread and family in the run.  From the empty cache
    a thread gets no more records than it had entry probes, and none at all
    without one. *)
Theorem records_bounded_by_entries K t ty trace st :
  (length (emitted_for t ty (run K trace st)) + occupancy t ty (run K trace st)
   ≤ length (emitted_for t ty st) + occupancy t ty st + entries_in t ty trace)%nat
  ∧ (length (emitted_for t ty (run K trace init_state)) ≤ entries_in t ty trace)%nat.
Proof.
  assert (H : ∀ trace st,
    (length (emitted_for t ty (run K trace st)) + occupancy t ty (run K trace st)
     ≤ length (emitted_for t ty st) + occupancy t ty st + entries_in t ty trace)%nat).
  { clear trace st. induction trace as [|[cur p] trace IH]; intros st.
    - rewrite run_nil. lia.
    - rewrite run_cons, entries_in_cons. simpl fst. simpl snd.
      specialize (IH (fire K cur p st).2).
      pose proof (fire_count K cur p t ty st). lia. }
  split; [apply H|].
  specialize (H trace init_state). unfold occupancy at 2 in H.
  simpl in H. rewrite lookup_empty in H. simpl in H. lia.
Qed.

Lemma exits_in_cons tp trace :
  exits_in (tp :: trace) = (exits_in [tp] + exits_in trace)%nat.
Proof.
  unfold exits_in. rewrite (filter_app _ [tp] trace). apply length_app.
Qed.

(** X5.  The channel is append-only and only exit probes write to it: after
    any run the records published before are still there, in order, followed
    by at most one new record per exit probe of the run. *)
Theorem channel_append_only K trace st :
  ∃ new, events (run K trace st) = events st ++ new
         ∧ (length new ≤ exits_in trace)%nat.
Proof.
  revert st. induction trace as [|[cur p] trace IH]; intros st.
  - exists []. rewrite run_nil, app_nil_r. split; [done|]. simpl. lia.
  - rewrite run_cons, exits_in_cons. simpl fst. simpl snd.
    destruct (IH (fire K cur p st).2) as (new & -> & Hlen).
    destruct (is_exit p) eqn:Hx.
    + destruct (fire_events K cur p st) as [->|(ev & -> & _)].
      * exists new. split; [done|]. lia.
      * exists (ev :: new). rewrite <- app_assoc. split; [done|].
        unfold exits_in at 1. rewrite filter_cons_True by done. simpl. lia.
    + rewrite (fire_events_quiet K cur p st Hx). exists new. split; [done|]. lia.
Qed.

Lemma all_entries_in_cons tp trace :
  all_entries_in (tp :: trace) = (all_entries_in [tp] + all_entries_in trace)%nat.
Proof.
  unfold all_entries_in. rewrite (filter_app _ [tp] trace). apply length_app.
Qed.

Lemma fire_size K cur p st :
  (size (syscalls (fire K cur p st).2)
   ≤ size (syscalls st) + all_entries_in [(cur, p)])%nat.
Proof.
  destruct p; handlers; simpl;
    try (destruct (syscalls st !! _) eqn:E); simpl;
    repeat case_match; simpl;
    rewrite ?map_size_insert, ?map_size_delete, ?E; simpl;
    try (destruct (syscalls st !! _)); simpl; unfold all_entries_in; simpl;
    lia.
Qed.

(** X6.  The cache grows only at entry probes: a hook or an exit probe
    never increases its size, and after any run it holds at most as many
    entries more than before as entry probes fired. *)
Theorem cache_grows_only_at_entry K cur p trace st :
  (is_entry p = false →
   (size (syscalls (fire K cur p st).2) ≤ size (syscalls st))%nat)
  ∧ (size (syscalls (run K trace st)) ≤ size (syscalls st) + all_entries_in trace)%nat.
Proof.
  split.
  - intros He. pose proof (fire_size K cur p st) as H.
    unfold all_entries_in in H. rewrite filter_cons_False in H; [simpl in H; lia|].
    simpl. by rewrite He.
  - revert st. induction trace as [|[c q] trace IH]; intros st.
    + rewrite run_nil. lia.
    + rewrite run_cons, all_entries_in_cons. simpl fst. simpl snd.
      specialize (IH (fire K c q st).2). pose proof (fire_size K c q st). lia.
Qed.

Lemma cache_grows_only_at_entry_witness :
  let st := run sample_kernel [(7, kprobe_mount 0 0 0)] init_state in
  let st' := (fire sample_kernel 7
                (kprobe_attach_recursive_mnt 0x1000 0x1100 0x3000) st).2 in
  (size (syscalls st') ≤ size (syscalls st))%nat.
Proof.
  intros st st'.
  exact (proj1 (cache_grows_only_at_entry sample_kernel 7
                  (kprobe_attach_recursive_mnt 0x1000 0x1100 0x3000) [] st)
           eq_refl).
Defined.

(** ** Mode change without the hook *)

(** X7.  Unlike mount, the mode-change exit has no guard on the file
    identity: an admitted occurrence whose pending entry no probe of its
    thread and family touched between entry and a handled exit is still
    published, once, with the masked mode, the exit's return value and an
    all-zero file identity. *)
Theorem chmod_without_hook_zero_file K t p_entry mid p_exit st :
  is_entry p_entry = true → family p_entry = EVENT_CHMOD →
  is_exit p_exit = true → family p_exit = EVENT_CHMOD →
  filter_admits K EVENT_CHMOD t = true →
  IS_UNHANDLED_ERROR K (exit_ret p_exit) = false →
  forallb (foreign t EVENT_CHMOD) mid = true →
  emitted_for t EVENT_CHMOD (run K ([(t, p_entry)] ++ mid ++ [(t, p_exit)]) st)
  = emitted_for t EVENT_CHMOD st
    ++ [Chmod_event
          {| ce_event := {| kevent_type := Some EVENT_CHMOD |};
             ce_process := {| pid := current_tgid K t; tid := t |};
             ce_container :=
               fill_container_context (get_pid_cache K (current_tgid K t))
                 {| container_id := "" |};
             ce_syscall := {| retval := exit_ret p_exit |};
             ce_file := {| path_key := {| ino := 0; mount_id := 0 |}; file_flags := 0 |};
             ce_mode := Z.land (entry_mode p_entry) S_IALLUGO;
             ce_padding := 0 |}].
Proof.
  intros He Hfe Hx Hfx Ha Hr Hmid.
  assert (Hmid' : forallb (intermediate t EVENT_CHMOD) mid = true).
  { apply forallb_forall. intros tp Hin.
    eapply forallb_forall in Hmid; [|exact Hin].
    unfold intermediate, foreign in *. by rewrite Hmid. }
  destruct (chmod_occurrence K t p_entry mid p_exit st He Hfe Hx Hfx Ha Hr Hmid')
    as (sc & Hsc & _ & ->).
  f_equal. revert Hsc. rewrite run_app.
  destruct (run_foreign K t EVENT_CHMOD mid (run K [(t, p_entry)] st) Hmid)
    as [-> _].
  rewrite run_cons, run_nil. simpl fst. simpl snd.
  rewrite (chmod_entry_admitted K t p_entry st He Hfe Ha). simpl snd.
  unfold cache_syscall. simpl. rewrite lookup_insert_eq. by intros [= <-].
Qed.

(** chmod that fails with -EACCES on the sample image, which reports it. *)
Lemma chmod_without_hook_zero_file_witness :
  emitted_for 7 EVENT_CHMOD
    (run sample_kernel
       ([(7, kprobe_chmod 0x6000 0x1ed)] ++ [(8, kprobe_mount 0 0 0)]
        ++ [(7, kretprobe_chmod (-13))]) init_state)
  = emitted_for 7 EVENT_CHMOD init_state
    ++ [Chmod_event
          {| ce_event := {| kevent_type := Some EVENT_CHMOD |};
             ce_process := {| pid := 7; tid := 7 |};
             ce_container := {| container_id := "" |};
             ce_syscall := {| retval := -13 |};
             ce_file := {| path_key := {| ino := 0; mount_id := 0 |}; file_flags := 0 |};
             ce_mode := 0x1ed;
             ce_padding := 0 |}].
Proof.
  apply (chmod_without_hook_zero_file sample_kernel 7 (kprobe_chmod 0x6000 0x1ed)
           [(8, kprobe_mount 0 0 0)] (kretprobe_chmod (-13)) init_state);
    reflexivity.
Defined.

(** ** Path resolution *)

(** X8.  Path resolution is tied to hooks and to publishing: an entry or
    exit probe records path fragments only when it is a mount exit that
    publishes its record.  The probes of chmod.h never resolve a path, and a
    mount exit that returns early (error, or the zero guard) resolves
    nothing. *)
Theorem resolution_only_when_publishing K cur p st :
  is_entry p = true ∨ is_exit p = true →
  family p = EVENT_CHMOD ∨ events (fire K cur p st).2 = events st →
  pathnames (fire K cur p st).2 = pathnames st.
Proof.
  intros Hp Hq.
  destruct p; simpl in Hp, Hq; try (destruct Hp; discriminate);
    handlers; simpl in *;
    try (destruct (syscalls st !! _)); simpl in *; repeat case_match;
    simpl in *; try done.
  all: destruct Hq as [Hq|Hq]; [discriminate|].
  all: apply (f_equal length) in Hq; rewrite length_app in Hq; simpl in Hq; lia.
Qed.

(** A mount exit suppressed by the zero guard. *)
Lemma resolution_only_when_publishing_witness :
  let st := run sample_kernel [(7, kprobe_mount 0 0 0)] init_state in
  pathnames (fire sample_kernel 7 (kretprobe_mount 0) st).2 = pathnames st.
Proof.
  intros st.
  apply (resolution_only_when_publishing sample_kernel 7 (kretprobe_mount 0) st);
    [right | right]; reflexivity.
Defined.

(** ** What is on the channel *)

(** What an exit probe publishes, and from which pending entry. *)
Lemma fire_events_cases K cur p st :
  events (fire K cur p st).2 = events st
  ∨ ∃ sc, syscalls st !! (cur, family p) = Some sc
          ∧ ((family p = EVENT_CHMOD
              ∧ IS_UNHANDLED_ERROR K (exit_ret p) = false
              ∧ events (fire K cur p st).2
                = events st ++ [chmod_event_of K cur sc (exit_ret p)])
             ∨ (family p = EVENT_MOUNT
                ∧ mount_guard K sc = false
                ∧ events (fire K cur p st).2
                  = events st ++ [mount_event_of K cur sc 0])).
Proof.
  destruct (is_exit p) eqn:Hx; [|left; by apply fire_events_quiet].
  destruct (syscalls st !! (cur, family p)) as [sc|] eqn:E.
  2: { left. by rewrite (exit_absent K cur p st Hx E). }
  destruct (family p) eqn:Hf.
  - rewrite (chmod_exit_present K cur p st sc Hx Hf E).
    destruct (IS_UNHANDLED_ERROR K (exit_ret p)) eqn:Hu.
    + left. by rewrite do_sys_chmod_ret_unhandled.
    + right. exists sc. split; [done|]. left.
      by rewrite do_sys_chmod_ret_handled.
  - rewrite (mount_exit_present K cur p st sc Hx Hf E).
    destruct (Z.eq_dec (exit_ret p) 0) as [->|Hr].
    + destruct (mount_guard K sc) eqn:G.
      * left. by rewrite do_sys_mount_ret_guarded.
      * right. exists sc. split; [done|]. right.
        destruct (do_sys_mount_ret_published K cur sc
                    (set_syscalls (delete (cur, EVENT_MOUNT) (syscalls st)) st) G)
          as [frags ->]. done.
    + left. by rewrite do_sys_mount_ret_error.
Qed.

Lemma length_substring_0 n s : (String.length (String.substring 0 n s) ≤ n)%nat.
Proof.
  revert s. induction n as [|n IH]; intros [|c s]; simpl; try lia.
  specialize (IH s). lia.
Qed.

Lemma channel_inv_init K : channel_inv K init_state.
Proof.
  split.
  - intros t sc H. simpl in H. by rewrite lookup_empty in H.
  - intros ev H. simpl in H. by apply elem_of_nil in H.
Qed.

Lemma channel_inv_fire K cur p st :
  channel_inv K st → channel_inv K (fire K cur p st).2.
Proof.
  intros [Hent Hev]. split.
  - intros t sc.
    destruct (decide ((t, EVENT_CHMOD) = (cur, family p))) as [[= -> Hf]|Hne].
    2: { rewrite fire_syscalls_frame by done. apply Hent. }
    destruct p; try discriminate Hf; handlers; simpl;
      try (destruct (syscalls st !! (cur, EVENT_CHMOD)) as [sc0|] eqn:E); simpl;
      repeat case_match; simpl;
      rewrite ?lookup_insert_eq, ?lookup_delete_eq; try done;
      try (rewrite E; intros [= <-]; by apply Hent);
      intros [= <-]; simpl;
      first [ by apply Hent
            | split; [apply land_S_IALLUGO_range
                     |unfold filter_admits; by apply negb_true_iff] ].
  - intros ev Hin.
    destruct (fire_events_cases K cur p st)
      as [H|(sc & Hsc & [(Hf & Hu & H)|(Hf & G & H)])];
      rewrite H in Hin; [by apply Hev| |];
      apply elem_of_app in Hin as [Hin|Hin]; try (by apply Hev);
      apply list_elem_of_singleton in Hin; subst ev; simpl.
    + rewrite Hf in Hsc. destruct (Hent cur sc Hsc) as [Hm Ha].
      by repeat split; try apply Hm.
    + unfold mount_guard in G. repeat split; try done.
      * intros [H1 H2]. simpl in H1, H2. by rewrite H1, H2 in G.
      * unfold bpf_probe_read_str, FSTYPE_LEN.
        pose proof (length_substring_0 (16 - 1)
                      (kernel_str K (fstype (mount sc)))). simpl in *. lia.
Qed.

Lemma channel_inv_reachable K st : reachable K st → channel_inv K st.
Proof.
  intros [trace ->]. induction trace as [|[cur p] trace IH] using rev_ind.
  - apply channel_inv_init.
  - rewrite run_app. apply (channel_inv_fire K cur p _ IH).
Qed.

(** X9.  Every mode-change record on the channel, in any state the engine
    can reach: its return value is not an unhandled error, its mode lies
    within 07777, its padding is zero, and it belongs to a thread the filter
    admits - a discarded thread never shows up on the channel. *)
Theorem chmod_records_well_formed K st e :
  reachable K st → Chmod_event e ∈ events st →
  IS_UNHANDLED_ERROR K (retval (ce_syscall e)) = false
  ∧ 0 ≤ ce_mode e ≤ 0xfff
  ∧ ce_padding e = 0
  ∧ filter_admits K EVENT_CHMOD (tid (ce_process e)) = true.
Proof.
  intros Hr Hin.
  destruct (channel_inv_reachable K st Hr) as [_ H].
  destruct (H _ Hin) as (_ & ? & ? & ? & ?). done.
Qed.

Lemma chmod_records_well_formed_witness :
  let st := run sample_kernel
              [(7, kprobe_fchmod 3 0x81ed); (7, kretprobe_fchmod (-13))] init_state in
  let e := {| ce_event := {| kevent_type := Some EVENT_CHMOD |};
              ce_process := {| pid := 7; tid := 7 |};
              ce_container := {| container_id := "" |};
              ce_syscall := {| retval := -13 |};
              ce_file := zero_file;
              ce_mode := 0x1ed;
              ce_padding := 0 |} in
  Chmod_event e ∈ events st
  ∧ IS_UNHANDLED_ERROR sample_kernel (retval (ce_syscall e)) = false
  ∧ 0 ≤ ce_mode e ≤ 0xfff
  ∧ ce_padding e = 0
  ∧ filter_admits sample_kernel EVENT_CHMOD (tid (ce_process e)) = true.
Proof.
  intros st e.
  assert (Hin : Chmod_event e ∈ events st) by (vm_compute; apply list_elem_of_here).
  split; [exact Hin|].
  apply (chmod_records_well_formed sample_kernel st e); [|exact Hin].
  apply reachable_run, reachable_init.
Defined.

(** X10.  Every mount record on the channel, in any state the engine can
    reach: its return value is 0, its mount id and device are not both
    zero, and its filesystem type has fewer than [FSTYPE_LEN] characters, so
    that it fits the record's array with its terminator. *)
Theorem mount_records_well_formed K st e :
  reachable K st → Mount_event e ∈ events st →
  retval (me_syscall e) = 0
  ∧ ¬ (me_mount_id e = 0 ∧ me_device e = 0)
  ∧ (String.length (me_fstype e) < FSTYPE_LEN)%nat.
Proof.
  intros Hr Hin.
  destruct (channel_inv_reachable K st Hr) as [_ H].
  destruct (H _ Hin) as (_ & ? & ? & ? & _). done.
Qed.

Lemma mount_records_well_formed_witness :
  let st := run sample_kernel
              [(7, kprobe_mount 0 0 0);
               (7, kprobe_attach_recursive_mnt 0x1000 0x1100 0x3000);
               (7, kretprobe_mount 0)] init_state in
  let e := {| me_event := {| kevent_type := Some EVENT_MOUNT |};
              me_process := {| pid := 7; tid := 7 |};
              me_container := {| container_id := "" |};
              me_syscall := {| retval := 0 |};
              me_mount_id := 27; me_group_id := 5; me_device := 2049;
              me_parent_mount_id := 22; me_parent_ino := 131;
              me_root_ino := 2; me_root_mount_id := 27;
              me_padding := 0; me_fstype := "ext4" |} in
  Mount_event e ∈ events st
  ∧ retval (me_syscall e) = 0
  ∧ ¬ (me_mount_id e = 0 ∧ me_device e = 0)
  ∧ (String.length (me_fstype e) < FSTYPE_LEN)%nat.
Proof.
  intros st e.
  assert (Hin : Mount_event e ∈ events st) by (vm_compute; apply list_elem_of_here).
  split; [exact Hin|].
  apply (mount_records_well_formed sample_kernel st e); [|exact Hin].
  apply reachable_run, reachable_init.
Defined.

Lemma root_inv_init K : root_inv K init_state.
Proof.
  split.
  - intros t sc H. simpl in H. by rewrite lookup_empty in H.
  - intros ev H. simpl in H. by apply elem_of_nil in H.
Qed.

Lemma root_inv_fire K cur p st :
  get_mount_mount_id K 0 = 0 →
  root_inv K st → root_inv K (fire K cur p st).2.
Proof.
  intros Hnull [Hent Hev]. split.
  - intros t sc.
    destruct (decide ((t, EVENT_MOUNT) = (cur, family p))) as [[= -> Hf]|Hne].
    2: { rewrite fire_syscalls_frame by done. apply Hent. }
    destruct p; try discriminate Hf; handlers; simpl;
      try (destruct (syscalls st !! (cur, EVENT_MOUNT)) as [sc0|] eqn:E); simpl;
      repeat case_match; simpl;
      rewrite ?lookup_insert_eq, ?lookup_delete_eq; try done;
      try (rewrite E; intros [= <-]; by apply Hent);
      intros [= <-]; simpl; done.
  - intros e Hin.
    destruct (fire_events_cases K cur p st)
      as [H|(sc & Hsc & [(Hf & Hu & H)|(Hf & G & H)])];
      rewrite H in Hin; [by apply Hev| |];
      apply elem_of_app in Hin as [Hin|Hin]; try (by apply Hev);
      apply list_elem_of_singleton in Hin.
    + discriminate Hin.
    + injection Hin as ->. simpl. rewrite Hf in Hsc. by apply (Hent cur).
Qed.

(** X11.  On a kernel where the mount id read through the null handle is
    zero, every mount record on the channel of a reachable state has a root
    mount id equal to its mount id: the hooks store the source handle and
    the root key together, and the exit reads both from the same entry. *)
Theorem mount_record_root_is_source K st e :
  get_mount_mount_id K 0 = 0 →
  reachable K st → Mount_event e ∈ events st →
  me_root_mount_id e = me_mount_id e.
Proof.
  intros Hnull [trace ->] Hin.
  assert (H : root_inv K (run K trace init_state)).
  { clear Hin. induction trace as [|[cur p] trace IH] using rev_ind.
    - apply root_inv_init.
    - rewrite run_app. by apply (root_inv_fire K cur p _ Hnull). }
  by apply H.
Qed.

(** Both hooks fire in turn on the sample image, with different sources. *)
Lemma mount_record_root_is_source_witness :
  let st := run sample_kernel
              [(7, kprobe_mount 0 0 0);
               (7, kprobe_attach_recursive_mnt 0x1000 0x1100 0x3000);
               (7, kprobe_propagate_mnt 0x1000 0x3000 0x1100);
               (7, tracepoint_mount_exit 0)] init_state in
  let e := {| me_event := {| kevent_type := Some EVENT_MOUNT |};
              me_process := {| pid := 7; tid := 7 |};
              me_container := {| container_id := "" |};
              me_syscall := {| retval := 0 |};
              me_mount_id := 22; me_group_id := 0; me_device := 2050;
              me_parent_mount_id := 27; me_parent_ino := 131;
              me_root_ino := 0; me_root_mount_id := 22;
              me_padding := 0; me_fstype := "" |} in
  Mount_event e ∈ events st ∧ me_root_mount_id e = me_mount_id e.
Proof.
  intros st e.
  assert (Hin : Mount_event e ∈ events st) by (vm_compute; apply list_elem_of_here).
  split; [exact Hin|].
  apply (mount_record_root_is_source sample_kernel st e); [reflexivity| |exact Hin].
  apply reachable_run, reachable_init.
Defined.

(** ** Threads and families do not interfere *)

(** What a probe does to its own slot, and what it publishes, depends on
    that slot alone. *)
Lemma fire_local K cur p st st' :
  syscalls st !! (cur, family p) = syscalls st' !! (cur, family p) →
  syscalls (fire K cur p st).2 !! (cur, family p)
  = syscalls (fire K cur p st').2 !! (cur, family p)
  ∧ ∃ new, events (fire K cur p st).2 = events st ++ new
           ∧ events (fire K cur p st').2 = events st' ++ new
           ∧ (new = [] ∨ ∃ ev, new = [ev] ∧ event_tid ev = cur
                               ∧ event_family ev = family p).
Proof.
  intros H.
  destruct p; handlers; simpl in *; rewrite <- ?H;
    repeat case_match; simpl;
    rewrite ?lookup_insert_eq, ?lookup_delete_eq;
    (split; [first [done | congruence]|]);
    first [ by (exists []; rewrite !app_nil_r; auto)
          | by (eexists; split; [done|]; split; [done|]; right; eauto) ].
Qed.

Lemma emitted_for_app t ty st st' new :
  events st' = events st ++ new →
  emitted_for t ty st'
  = emitted_for t ty st
    ++ filter (λ ev, event_tid ev = t ∧ event_family ev = ty) new.
Proof. intros H. unfold emitted_for. by rewrite H, filter_app. Qed.

Lemma fire_agree K t ty cur p st st' :
  agree t ty st st' → agree t ty (fire K cur p st).2 (fire K cur p st').2.
Proof.
  intros [Hs He].
  destruct (decide ((t, ty) = (cur, family p))) as [[= -> ->]|Hne].
  - destruct (fire_local K cur p st st' Hs) as (Hs' & new & H1 & H2 & _).
    split; [done|].
    rewrite (emitted_for_app _ _ _ _ _ H1), (emitted_for_app _ _ _ _ _ H2).
    by rewrite He.
  - split.
    + by rewrite !fire_syscalls_frame.
    + by rewrite !fire_emitted_frame.
Qed.

Lemma run_agree K t ty trace st st' :
  agree t ty st st' → agree t ty (run K trace st) (run K trace st').
Proof.
  revert st st'. induction trace as [|[cur p] trace IH]; intros st st' H.
  - done.
  - rewrite !run_cons. apply IH. by apply fire_agree.
Qed.

(** X12.  What happens to a thread's occurrence does not depend on what
    other threads and families do meanwhile: removing from a run any block
    of probes that are all of another thread or family changes neither the
    slot of [(t, ty)] at the end nor the records published for it. *)
Theorem interleaving_independent K t ty tr1 mid tr2 st :
  forallb (foreign t ty) mid = true →
  syscalls (run K (tr1 ++ mid ++ tr2) st) !! (t, ty)
  = syscalls (run K (tr1 ++ tr2) st) !! (t, ty)
  ∧ emitted_for t ty (run K (tr1 ++ mid ++ tr2) st)
    = emitted_for t ty (run K (tr1 ++ tr2) st).
Proof.
  intros Hmid. rewrite !run_app.
  apply (run_agree K t ty tr2).
  destruct (run_foreign K t ty mid (run K tr1 st) Hmid) as [H1 H2].
  by split.
Qed.

(** A chmod of thread 7 with a whole mount of thread 8 in the middle. *)
Lemma interleaving_independent_witness :
  let mid := [(8, kprobe_mount 0 0 0);
              (8, kprobe_attach_recursive_mnt 0x1000 0x1100 0x3000);
              (8, kretprobe_mount 0)] in
  syscalls (run sample_kernel
              ([(7, kprobe_chmod 0 0x1a4)] ++ mid ++ [(7, kretprobe_chmod 0)])
              init_state) !! (7, EVENT_CHMOD)
  = syscalls (run sample_kernel
                ([(7, kprobe_chmod 0 0x1a4)] ++ [(7, kretprobe_chmod 0)])
                init_state) !! (7, EVENT_CHMOD)
  ∧ emitted_for 7 EVENT_CHMOD
      (run sample_kernel
         ([(7, kprobe_chmod 0 0x1a4)] ++ mid ++ [(7, kretprobe_chmod 0)])
         init_state)
    = emitted_for 7 EVENT_CHMOD
        (run sample_kernel
           ([(7, kprobe_chmod 0 0x1a4)] ++ [(7, kretprobe_chmod 0)])
           init_state).
Proof.
  intros mid.
  exact (interleaving_independent sample_kernel 7 EVENT_CHMOD
           [(7, kprobe_chmod 0 0x1a4)] mid [(7, kretprobe_chmod 0)] init_state
           eq_refl).
Defined.

(** X13.  Two probes of different threads, or of different families on one
    thread, commute: fired in either order they leave the same cache, the
    same records for every thread and family in the same order, and the
    same records on the channel up to the order of the two. *)
Theorem distinct_probes_commute K t1 p1 t2 p2 st :
  (t1, family p1) ≠ (t2, family p2) →
  let a := (fire K t2 p2 (fire K t1 p1 st).2).2 in
  let b := (fire K t1 p1 (fire K t2 p2 st).2).2 in
  syscalls a = syscalls b
  ∧ (∀ t ty, emitted_for t ty a = emitted_for t ty b)
  ∧ events a ≡ₚ events b.
Proof.
  intros Hne a b. subst a b.
  assert (Hne' : (t2, family p2) ≠ (t1, family p1)) by congruence.
  destruct (fire_local K t1 p1 st (fire K t2 p2 st).2)
    as (Hs1 & new1 & E1 & E1' & Hn1).
  { by rewrite fire_syscalls_frame. }
  destruct (fire_local K t2 p2 st (fire K t1 p1 st).2)
    as (Hs2 & new2 & E2 & E2' & Hn2).
  { by rewrite fire_syscalls_frame. }
  split; [|split].
  - apply map_eq. intros k.
    destruct (decide (k = (t1, family p1))) as [->|Hk1].
    + rewrite fire_syscalls_frame by done. done.
    + destruct (decide (k = (t2, family p2))) as [->|Hk2].
      * rewrite (fire_syscalls_frame K t1 p1) by done. done.
      * by rewrite !fire_syscalls_frame.
  - intros t ty.
    rewrite (emitted_for_app _ _ _ _ _ E2'), (emitted_for_app _ _ _ _ _ E1).
    rewrite (emitted_for_app _ _ _ _ _ E1'), (emitted_for_app _ _ _ _ _ E2).
    rewrite <- !app_assoc. f_equal.
    destruct Hn1 as [->|(ev1 & -> & Ht1 & Hf1)]; [by rewrite app_nil_r|].
    destruct Hn2 as [->|(ev2 & -> & Ht2 & Hf2)]; [by rewrite app_nil_r|].
    rewrite !filter_cons, !filter_nil.
    repeat case_decide; try done.
    exfalso. apply Hne. destruct_and!. congruence.
  - rewrite E2', E1, E1', E2, <- !app_assoc.
    apply Permutation_app_head, Permutation_app_comm.
Qed.

(** Thread 7 leaves a mount while thread 8 leaves a chmod. *)
Lemma distinct_probes_commute_witness :
  let st := run sample_kernel
              [(7, kprobe_mount 0 0 0);
               (7, kprobe_attach_recursive_mnt 0x1000 0x1100 0x3000);
               (8, kprobe_chmod 0 0x1a4)] init_state in
  syscalls (fire sample_kernel 8 (kretprobe_chmod 0)
              (fire sample_kernel 7 (kretprobe_mount 0) st).2).2
  = syscalls (fire sample_kernel 7 (kretprobe_mount 0)
                (fire sample_kernel 8 (kretprobe_chmod 0) st).2).2.
Proof.
  intros st.
  exact (proj1 (distinct_probes_commute sample_kernel 7 (kretprobe_mount 0)
                  8 (kretprobe_chmod 0) st ltac:(discriminate))).
Defined.

(** From two states whose slots of [(t, ty)] hold the same, a run publishes
    the same new records for it and ends with the same slot. *)
Lemma run_same_slot K t ty trace st st' :
  syscalls st !! (t, ty) = syscalls st' !! (t, ty) →
  syscalls (run K trace st) !! (t, ty) = syscalls (run K trace st') !! (t, ty)
  ∧ ∃ new, emitted_for t ty (run K trace st) = emitted_for t ty st ++ new
           ∧ emitted_for t ty (run K trace st') = emitted_for t ty st' ++ new.
Proof.
  revert st st'. induction trace as [|[cur p] trace IH]; intros st st' H.
  - split; [done|]. exists []. by rewrite !app_nil_r.
  - rewrite !run_cons. simpl fst. simpl snd.
    destruct (decide ((t, ty) = (cur, family p))) as [[= -> ->]|Hne].
    + destruct (fire_local K cur p st st' H) as (Hs & new & H1 & H2 & _).
      destruct (IH _ _ Hs) as (Hs' & new' & -> & ->).
      split; [done|].
      rewrite (emitted_for_app _ _ _ _ _ H1), (emitted_for_app _ _ _ _ _ H2).
      eexists. by rewrite <- !app_assoc.
    + destruct (IH (fire K cur p st).2 (fire K cur p st').2)
        as (Hs' & new' & -> & ->).
      { by rewrite !fire_syscalls_frame. }
      split; [done|]. rewrite !fire_emitted_frame by done. by eexists.
Qed.

(** X14.  An entry probe that parks an entry starts from a clean slate:
    whatever was pending for the thread and family before - an abandoned
    occurrence, with whatever the hooks had written into it - the slot after
    the probe, the slot after any run that follows, and the records that run
    publishes for the thread and family are the same. *)
Theorem entry_resets_slot K t p_entry trace st st' :
  is_entry p_entry = true →
  family p_entry = EVENT_MOUNT ∨ filter_admits K EVENT_CHMOD t = true →
  let ty := family p_entry in
  syscalls (fire K t p_entry st).2 !! (t, ty)
  = syscalls (fire K t p_entry st').2 !! (t, ty)
  ∧ syscalls (run K ((t, p_entry) :: trace) st) !! (t, ty)
    = syscalls (run K ((t, p_entry) :: trace) st') !! (t, ty)
  ∧ ∃ new,
      emitted_for t ty (run K ((t, p_entry) :: trace) st)
      = emitted_for t ty st ++ new
      ∧ emitted_for t ty (run K ((t, p_entry) :: trace) st')
        = emitted_for t ty st' ++ new.
Proof.
  intros He Hadm ty. subst ty.
  assert (Hs : syscalls (fire K t p_entry st).2 !! (t, family p_entry)
               = syscalls (fire K t p_entry st').2 !! (t, family p_entry)).
  { destruct (family p_entry) eqn:Hf.
    - destruct Hadm as [Hadm|Hadm]; [discriminate|].
      rewrite !(chmod_entry_admitted K t p_entry _ He Hf Hadm). simpl.
      by rewrite !lookup_insert_eq.
    - rewrite !(mount_entry_always K t p_entry _ He Hf). simpl.
      by rewrite !lookup_insert_eq. }
  split; [done|]. rewrite !run_cons. simpl fst. simpl snd.
  destruct (run_same_slot K t (family p_entry) trace _ _ Hs)
    as (Hs' & new & H1 & H2).
  split; [done|]. exists new.
  rewrite H1, H2.
  by rewrite !(emitted_for_same _ _ _ _ (fire_events_quiet K t p_entry _
                 ltac:(by destruct p_entry))).
Qed.

(** A mount abandoned after its hook fired, against an empty cache: the
    next mount of the thread, with no hook, publishes nothing in both. *)
Lemma entry_resets_slot_witness :
  let stale := run sample_kernel
                 [(7, kprobe_mount 0 0 0);
                  (7, kprobe_attach_recursive_mnt 0x1000 0x1100 0x3000)]
                 init_state in
  syscalls (run sample_kernel [(7, kprobe_mount 0 0 0); (7, kretprobe_mount 0)] stale)
    !! (7, EVENT_MOUNT)
  = syscalls (run sample_kernel [(7, kprobe_mount 0 0 0); (7, kretprobe_mount 0)]
                init_state) !! (7, EVENT_MOUNT).
Proof.
  intros stale.
  exact (proj1 (proj2 (entry_resets_slot sample_kernel 7 (kprobe_mount 0 0 0)
                         [(7, kretprobe_mount 0)] stale init_state
                         eq_refl (or_introl eq_refl)))).
Defined.

(** The stale source mount does not leak into the next occurrence. *)
Example stale_hook_data_not_published :
  events (run sample_kernel
            [(7, kprobe_mount 0 0 0);
             (7, kprobe_attach_recursive_mnt 0x1000 0x1100 0x3000);
             (7, kprobe_mount 0 0 0);
             (7, kretprobe_mount 0)] init_state) = [].
Proof. reflexivity. Qed.

(** ** Overwriting a pending entry *)




